(** * Retrieval engine of rag_demo: chunker, index wrapper, similarity filter

    A shallow embedding of
      - [src/backend/cleaner.py]   ([chunk_text]),
      - [src/backend/vectorize.py] ([VectorDB.add_documents], [VectorDB.query]),
      - [src/cli/query_cli.py], [app.py], [inspect_vectordb.py]
        (the distance-to-similarity conversion and the threshold filter),
    followed by the properties of the retrieval engine.

    Conventions.  Python [int] is [Z].  A Python [str] is a [list ascii]
    ([text]); the characters are the code points below 256, and
    [str.lower], [str.strip] follow Python on that range.  A Python [float]
    distance is an exact rational ([Q]).  A [dict] is a [gmap].  The [while]
    loop of [chunk_text] takes a fuel argument: [None] means that the loop
    is still running when the fuel is spent. *)

From Stdlib Require Import ZArith QArith Qminmax Lqa Ascii String DecimalNat DecimalString
  List Lia.
From stdpp Require Import gmap strings list fin_maps sorting.

Local Open Scope Z_scope.

(** ** Python string primitives *)

Module Text.

Definition text := list ascii.

(** A string literal as a [text]. *)
Definition str (s : string) : text := list_ascii_of_string s.

(** [len(l)], of a string or of a list. *)
Definition len {A} (l : list A) : Z := Z.of_nat (length l).

(** [c.isspace()] for a single character: TAB, LF, VT, FF, CR, the
    separators FS, GS, RS, US, the space, NEL and the no-break space. *)
Definition is_space (c : ascii) : bool :=
  let n := N_of_ascii c in
  ((9 <=? n) && (n <=? 13) || (28 <=? n) && (n <=? 32)
   || (n =? 133) || (n =? 160))%N.

(** [c.lower()]: A-Z, and the capital letters of Latin-1 (all of
    192..222 but the multiplication sign 215), move up by 32. *)
Definition lower_char (c : ascii) : ascii :=
  let n := N_of_ascii c in
  if ((65 <=? n) && (n <=? 90)
      || (192 <=? n) && (n <=? 222) && negb (n =? 215))%N
  then ascii_of_N (n + 32) else c.

(** [t.lower()] *)
Definition lower (t : text) : text := map lower_char t.

(** A slice bound as Python normalises it: a negative bound counts from the
    end, and the result is clamped to [0, n]. *)
Definition clamp_index (n i : Z) : Z :=
  if i <? 0 then Z.max 0 (i + n) else Z.min i n.

(** [l[start:stop]], of a string or of a list. *)
Definition slice {A} (l : list A) (start stop : Z) : list A :=
  let s := clamp_index (len l) start in
  let e := clamp_index (len l) stop in
  take (Z.to_nat (e - s)) (drop (Z.to_nat s) l).

(** [t.startswith(sub)] *)
Fixpoint starts_with (sub t : text) : bool :=
  match sub, t with
  | [], _ => true
  | _ :: _, [] => false
  | a :: sub', b :: t' => if Ascii.eqb a b then starts_with sub' t' else false
  end.

(** The highest [i] in [lo, lo + k] at which [sub] occurs in [t], or [-1]. *)
Fixpoint rfind_scan (sub t : text) (lo : Z) (k : nat) : Z :=
  if starts_with sub (drop (Z.to_nat (lo + Z.of_nat k)) t)
  then lo + Z.of_nat k
  else match k with
       | O => -1
       | S k' => rfind_scan sub t lo k'
       end.

(** [t.rfind(sub, start, stop)]: the highest index at which [sub] occurs
    inside [t[start:stop]], or [-1]. *)
Definition rfind (sub t : text) (start stop : Z) : Z :=
  let s := clamp_index (len t) start in
  let e := clamp_index (len t) stop in
  if e - s <? len sub then -1
  else rfind_scan sub t s (Z.to_nat (e - s - len sub)).

(** [sub in t] *)
Fixpoint contains (sub t : text) : bool :=
  starts_with sub t ||
  match t with
  | [] => false
  | _ :: t' => contains sub t'
  end.

(** [t.lstrip()] *)
Fixpoint lstrip (t : text) : text :=
  match t with
  | [] => []
  | c :: t' => if is_space c then lstrip t' else t
  end.

(** [t.rstrip()] *)
Definition rstrip (t : text) : text := rev (lstrip (rev t)).

(** [t.strip()] *)
Definition strip (t : text) : text := rstrip (lstrip t).

(** [str(n)] for a non-negative [int]. *)
Definition str_of_nat (n : nat) : text :=
  str (NilEmpty.string_of_uint (Nat.to_uint n)).

End Text.

(** ** [src/backend/cleaner.py] *)

Module Cleaner.
Import Text.

(** The right edge of the window that starts at [start]: [start +
    chunk_size], moved back to just after the last sentence terminator, or
    else to the last space, when the window stops short of the end of the
    text. *)
Definition window_end (t : text) (chunk_size start : Z) : Z :=
  let e := start + chunk_size in
  if e <? len t then
    let sentence_end :=
      Z.max (Z.max (rfind (str ". ") t start e) (rfind (str "! ") t start e))
            (rfind (str "? ") t start e) in
    if sentence_end >? start then sentence_end + 1
    else
      let space := rfind (str " ") t start e in
      if space >? start then space else e
  else e.

(** [start = end - overlap; if start <= 0: start = end] *)
Definition next_start (overlap e : Z) : Z :=
  let s := e - overlap in
  if s <=? 0 then e else s.

(** The state of the loop: [start] and the chunks appended so far. *)
Definition loop_state : Type := Z * list text.

(** One pass through the body of the [while] loop. *)
Definition loop_body (t : text) (chunk_size overlap : Z) (st : loop_state)
  : loop_state :=
  let '(start, chunks) := st in
  let e := window_end t chunk_size start in
  (next_start overlap e, chunks ++ [strip (slice t start e)]).

(** [while start < len(text): ...] then [return chunks]. *)
Fixpoint chunk_loop (fuel : nat) (t : text) (chunk_size overlap : Z)
    (st : loop_state) : option (list text) :=
  if fst st <? len t then
    match fuel with
    | O => None
    | S fuel' =>
        chunk_loop fuel' t chunk_size overlap (loop_body t chunk_size overlap st)
    end
  else Some (snd st).

(** [chunk_text(text, chunk_size, overlap)] *)
Definition chunk_text (fuel : nat) (t : text) (chunk_size overlap : Z)
  : option (list text) :=
  if len t <=? chunk_size then Some [t]
  else chunk_loop fuel t chunk_size overlap (0, []).

(** The state after [n] passes through the loop body, whether or not the
    loop has ended by then. *)
Definition loop_after (n : nat) (t : text) (chunk_size overlap : Z)
  : loop_state :=
  Nat.iter n (loop_body t chunk_size overlap) (0, []).

End Cleaner.

(** ** [src/backend/vectorize.py] *)

Module Vectorize.
Import Text Cleaner.

(** [src/utils/config.py] *)
Definition CHUNK_SIZE : Z := 1000.
Definition CHUNK_OVERLAP : Z := 200.

(** The metadata dictionary stored with a chunk. *)
Record metadata := Metadata {
  filename : text;
  filepath : text;
  chunk_index : Z;
  total_chunks : Z
}.

(** [doc.get(key, dflt)] on a document dictionary. *)
Definition get (doc : gmap string text) (key : string) (dflt : text) : text :=
  default dflt (doc !! key).

(** [f"{filename}_chunk_{i}"] *)
Definition chunk_id (fname : text) (i : nat) : text :=
  fname ++ str "_chunk_" ++ str_of_nat i.

(** The three lists that [add_documents] fills before it writes. *)
Record pending := Pending {
  all_chunks : list text;
  all_metadatas : list metadata;
  all_ids : list text
}.

(** The content that [add_documents] chunks for a document. *)
Definition doc_content (doc : gmap string text) : text :=
  get doc "cleaned_markdown" (get doc "markdown" (get doc "content" [])).

(** [for i, chunk in enumerate(chunks): ...] for one document. *)
Definition gather_document (doc : gmap string text) (chunks : list text)
    (acc : pending) : pending :=
  let fname := get doc "filename" (str "unknown") in
  {| all_chunks := all_chunks acc ++ chunks;
     all_metadatas := all_metadatas acc ++
       imap (fun i _ =>
               {| filename := fname;
                  filepath := get doc "filepath" [];
                  chunk_index := Z.of_nat i;
                  total_chunks := len chunks |}) chunks;
     all_ids := all_ids acc ++ imap (fun i _ => chunk_id fname i) chunks |}.

(** [for doc in documents: ...]; [None] when [chunk_text] does not return
    within the fuel. *)
Fixpoint gather (fuel : nat) (documents : list (gmap string text))
    (acc : pending) : option pending :=
  match documents with
  | [] => Some acc
  | doc :: rest =>
      match chunk_text fuel (doc_content doc) CHUNK_SIZE CHUNK_OVERLAP with
      | None => None
      | Some chunks => gather fuel rest (gather_document doc chunks acc)
      end
  end.

(** The records of the collection by id, as ingestion sees them.  The
    vector of a record is computed by the index from its text. *)
Definition record : Type := text * metadata.

(** Modelled from the spec: [collection.add] is a method of the vector
    index (chromadb) and is not in the sources; the spec (2, 3) gives the
    index an upsert, where a record written under an id replaces the record
    stored under that id. *)
Definition collection_add (documents : list text) (metadatas : list metadata)
    (ids : list text) (c : gmap text record) : gmap text record :=
  foldl (fun c '(id, r) => <[id := r]> c) c (zip ids (zip documents metadatas)).

(** [range(0, stop, step)] for a positive [step]. *)
Definition range_step (stop step : Z) : list Z :=
  map (fun k => step * Z.of_nat k) (seq 0 (Z.to_nat ((stop + step - 1) / step))).

Definition batch_size : Z := 100.

(** [for i in range(0, len(all_chunks), batch_size): collection.add(...)] *)
Definition add_batches (p : pending) (c : gmap text record) : gmap text record :=
  foldl (fun c i =>
           let batch_end := Z.min (i + batch_size) (len (all_chunks p)) in
           collection_add (slice (all_chunks p) i batch_end)
                          (slice (all_metadatas p) i batch_end)
                          (slice (all_ids p) i batch_end) c)
        c (range_step (len (all_chunks p)) batch_size).

(** [VectorDB.add_documents(documents)]: the collection afterwards. *)
Definition add_documents (fuel : nat) (documents : list (gmap string text))
    (c : gmap text record) : option (gmap text record) :=
  match gather fuel documents (Pending [] [] []) with
  | None => None
  | Some p => Some (add_batches p c)
  end.

(** What [collection.query] returns for the one query text it is given, and
    what [VectorDB.query] returns: the lists under ['documents'],
    ['metadatas'] and ['distances'] (each the entry [[0]] of the key). *)
Record results := Results {
  documents : list text;
  metadatas : list metadata;
  distances : list Q
}.

(** [zip(a, b, c)] *)
Fixpoint zip3 {A B C} (a : list A) (b : list B) (c : list C)
  : list (A * B * C) :=
  match a, b, c with
  | x :: a', y :: b', z :: c' => (x, y, z) :: zip3 a' b' c'
  | _, _, _ => []
  end.

(** The rows of a result, as every loop over it reads them. *)
Definition rows (r : results) : list (text * metadata * Q) :=
  zip3 (documents r) (metadatas r) (distances r).

(** The truth value of [keyword_filter]: [None] and [""] are false. *)
Definition truthy (keyword_filter : option text) : bool :=
  match keyword_filter with
  | Some (_ :: _) => true
  | _ => false
  end.

(** The keyword loop of [query], with its [break]. *)
Fixpoint keyword_loop (keyword_lower : text) (n_results : Z)
    (candidates : list (text * metadata * Q)) (filtered : results) : results :=
  match candidates with
  | [] => filtered
  | (doc, meta, dist) :: rest =>
      if contains keyword_lower (lower doc) then
        let filtered' :=
          {| documents := documents filtered ++ [doc];
             metadatas := metadatas filtered ++ [meta];
             distances := distances filtered ++ [dist] |} in
        if len (documents filtered') >=? n_results then filtered'
        else keyword_loop keyword_lower n_results rest filtered'
      else keyword_loop keyword_lower n_results rest filtered
  end.

Section Query.

(** [self.collection.query(query_texts=[q], n_results=n, include=[...])]:
    the index, with the collection it has been given. *)
Variable collection_query : text -> Z -> results.

(** [VectorDB.query(query_text, n_results, keyword_filter)] *)
Definition query (query_text : text) (n_results : Z)
    (keyword_filter : option text) : results :=
  let res :=
    collection_query query_text
      (if truthy keyword_filter then n_results * 3 else n_results) in
  match keyword_filter, documents res with
  | Some (k :: kw), _ :: _ =>
      keyword_loop (lower (k :: kw)) n_results (rows res) (Results [] [] [])
  | _, _ => res
  end.

End Query.

End Vectorize.

(** ** The callers: [src/cli/query_cli.py], [app.py], [inspect_vectordb.py] *)

Module Callers.
Import Text Vectorize.

(** Python's [max(a, b)]: [b] when [b > a], else [a]. *)
Definition py_max (a b : Q) : Q :=
  match (a ?= b)%Q with
  | Lt => b
  | _ => a
  end.

(** [display_results(results, query, min_similarity)] of the CLI: the
    rows of the table it prints ([filtered_results]); no row when it
    prints that nothing was found. *)
Definition display_results (r : results) (min_similarity : Q)
  : list (text * metadata * Q) :=
  match documents r with
  | [] => []
  | _ :: _ =>
      foldl (fun filtered_results '(doc, meta, distance) =>
               let similarity := py_max 0 (100 * (1 - distance / 2))%Q in
               if Qle_bool min_similarity similarity
               then filtered_results ++ [(doc, meta, similarity)]
               else filtered_results)
            [] (rows r)
  end.

(** The filter loop of [main] of the CLI: the chunks and the metadata that
    reach the threshold; in answer mode the first five go to the LLM. *)
Definition main_filter (r : results) (min_similarity : Q)
  : list text * list metadata :=
  match documents r with
  | [] => ([], [])
  | _ :: _ =>
      foldl (fun '(filtered_chunks, filtered_metas) '(doc, meta, distance) =>
               let similarity := py_max 0 (100 * (1 - distance / 2))%Q in
               if Qle_bool min_similarity similarity
               then (filtered_chunks ++ [doc], filtered_metas ++ [meta])
               else (filtered_chunks, filtered_metas))
            ([], []) (rows r)
  end.

(** The listing of [inspect_vectordb.py]: a score for each result. *)
Definition inspect_results (r : results) : list (text * metadata * Q) :=
  match documents r with
  | [] => []
  | _ :: _ =>
      map (fun '(doc, meta, dist) =>
             (doc, meta, py_max 0 (100 * (1 - dist / 2))%Q)) (rows r)
  end.

Section App.

(** [st.session_state.db.query] and [st.session_state.llm.generate_answer] *)
Variable db_query : text -> Z -> option text -> results.
Variable generate_answer : text -> list text -> list metadata -> text.

(** [query_rag(question, min_similarity, n_results)] of the web UI: the
    answer and the sources shown with their scores. *)
Definition query_rag (question : text) (min_similarity : Q) (n_results : Z)
  : option text * list (text * metadata * Q) :=
  let r := db_query question 10 None in
  match documents r with
  | [] => (None, [])
  | _ :: _ =>
      let '(filtered_chunks, filtered_metas, filtered_sims) :=
        foldl (fun '(chunks, metas, sims) '(doc, meta, distance) =>
                 let similarity := py_max 0 (100 * (1 - distance / 2))%Q in
                 if Qle_bool min_similarity similarity
                 then (chunks ++ [doc], metas ++ [meta], sims ++ [similarity])
                 else (chunks, metas, sims))
              ([], [], []) (rows r) in
      match filtered_chunks with
      | [] => (None, [])
      | _ :: _ =>
          (Some (generate_answer question
                   (slice filtered_chunks 0 n_results)
                   (slice filtered_metas 0 n_results)),
           zip3 (slice filtered_chunks 0 n_results)
                (slice filtered_metas 0 n_results)
                (slice filtered_sims 0 n_results))
      end
  end.

End App.

End Callers.

(** ** The rest of [src/backend/cleaner.py]: cleaning the markdown *)

Module Markdown.
Import Text Vectorize.

Definition newline : ascii := "010"%char.
Definition vertical_tab : ascii := "011"%char.
Definition form_feed : ascii := "012"%char.
Definition space : ascii := " "%char.

(** [re.sub(r'[\f\v]', '', text)] *)
Definition sub_form_feeds (t : text) : text :=
  List.filter
    (fun c => negb (Ascii.eqb c form_feed || Ascii.eqb c vertical_tab)) t.

(** [re.sub(r' +', ' ', text)]: every run of spaces becomes one space, so a
    space that is followed by a space goes. *)
Fixpoint sub_spaces (t : text) : text :=
  match t with
  | [] => []
  | c :: t' =>
      if Ascii.eqb c space && starts_with [space] t' then sub_spaces t'
      else c :: sub_spaces t'
  end.

(** The bullets of [re.sub(r'[•●◦⦿]', '-', text)] are U+2022, U+25CF,
    U+25E6 and U+29BF: no character below 256 is one of them. *)
Definition is_bullet (c : ascii) : bool := false.

Definition sub_bullets (t : text) : text :=
  map (fun c => if is_bullet c then "-"%char else c) t.

(** [remove_special_characters(text)] *)
Definition remove_special_characters (t : text) : text :=
  sub_bullets (sub_spaces (sub_form_feeds t)).

(** [fix_ocr_errors(text)] replaces the five ligatures U+FB00 to U+FB04;
    none of them is a character below 256, and the text comes back as it
    is. *)
Definition fix_ocr_errors (t : text) : text := t.

(** The text without the spaces it begins with. *)
Fixpoint skip_spaces (t : text) : text :=
  match t with
  | [] => []
  | c :: t' => if Ascii.eqb c space then skip_spaces t' else t
  end.

(** [re.sub(r' +\n', '\n', text)]: every run of spaces that ends at a
    newline goes, so a space goes when only spaces lie between it and a
    newline. *)
Fixpoint sub_trailing_spaces (t : text) : text :=
  match t with
  | [] => []
  | c :: t' =>
      if Ascii.eqb c space && starts_with [newline] (skip_spaces t')
      then sub_trailing_spaces t'
      else c :: sub_trailing_spaces t'
  end.

(** [text.split('\n')] *)
Fixpoint split_lines (t : text) : list text :=
  match t with
  | [] => [[]]
  | c :: t' =>
      if Ascii.eqb c newline then [] :: split_lines t'
      else match split_lines t' with
           | line :: lines => (c :: line) :: lines
           | [] => [[c]]
           end
  end.

(** ['\n'.join(lines)] *)
Fixpoint join_lines (lines : list text) : text :=
  match lines with
  | [] => []
  | line :: lines' =>
      match lines' with
      | [] => line
      | _ :: _ => line ++ newline :: join_lines lines'
      end
  end.

(** The body of the loop over the lines: a line that begins with four
    spaces is kept, any other line loses the whitespace it begins with. *)
Definition normalize_line (line : text) : text :=
  if starts_with (str "    ") line then line else lstrip line.

(** [re.sub(r'\n{3,}', '\n\n', text)]: every run of three newlines or more
    becomes two, so a newline that is followed by two newlines goes. *)
Fixpoint sub_blank_lines (t : text) : text :=
  match t with
  | [] => []
  | c :: t' =>
      if Ascii.eqb c newline && starts_with [newline; newline] t'
      then sub_blank_lines t'
      else c :: sub_blank_lines t'
  end.

(** [normalize_spacing(text)] *)
Definition normalize_spacing (t : text) : text :=
  strip (sub_blank_lines
           (join_lines (map normalize_line
                          (split_lines (sub_trailing_spaces t))))).

(** [clean_markdown(document)] *)
Definition clean_markdown (document : gmap string text) : gmap string text :=
  let markdown := get document "markdown" (get document "content" []) in
  <["cleaned_markdown" :=
      normalize_spacing (fix_ocr_errors (remove_special_characters markdown))]>
    document.

End Markdown.

(** ** The rest of [src/backend/vectorize.py]: the database object *)

Module Store.
Import Text Cleaner Vectorize.

(** A [VectorDB] object: where it persists, the name of its collection and
    the records of the collection. *)
Record vector_db := VectorDB {
  persist_directory : text;
  collection_name : text;
  collection : gmap text record
}.

(** The dictionary that [get_collection_stats] returns. *)
Record stats := Stats {
  stats_collection_name : text;
  document_count : Z;
  stats_persist_directory : text
}.

(** Modelled from the spec: [collection.count()] is a method of the vector
    index and is not in the sources; the spec (4.4) makes it the number of
    records that the collection holds. *)
Definition collection_count (c : gmap text record) : Z := Z.of_nat (size c).

(** [VectorDB.get_collection_stats()] *)
Definition get_collection_stats (db : vector_db) : stats :=
  {| stats_collection_name := collection_name db;
     document_count := collection_count (collection db);
     stats_persist_directory := persist_directory db |}.

(** Modelled from the spec: [client.delete_collection] followed by
    [client.get_or_create_collection] are methods of the vector index and
    are not in the sources; the spec (4.4) has them leave the collection
    empty.  [VectorDB.reset_collection()] *)
Definition reset_collection (db : vector_db) : vector_db :=
  {| persist_directory := persist_directory db;
     collection_name := collection_name db;
     collection := ∅ |}.

(** [db.add_documents(documents)] on the object. *)
Definition db_add_documents (fuel : nat) (db : vector_db)
    (documents : list (gmap string text)) : option vector_db :=
  match add_documents fuel documents (collection db) with
  | None => None
  | Some c =>
      Some {| persist_directory := persist_directory db;
              collection_name := collection_name db;
              collection := c |}
  end.

(** [create_vector_db(documents, reset)], where [db] is the object that
    [VectorDB()] opens: the object it returns. *)
Definition create_vector_db (fuel : nat) (db : vector_db)
    (documents : list (gmap string text)) (reset : bool)
  : option vector_db :=
  db_add_documents fuel (if reset then reset_collection db else db) documents.

End Store.

(** ** [src/backend/llm.py]: the context and the prompt *)

Module Llm.
Import Text Vectorize Markdown.

(** [str(z)] for an [int]. *)
Definition str_of_int (z : Z) : text :=
  if z <? 0 then "-"%char :: str_of_nat (Z.to_nat (- z))
  else str_of_nat (Z.to_nat z).

(** [f" (Source: {filename}, Chunk {chunk_idx})"] with [chunk_idx =
    chunk_index + 1]. *)
Definition source_of (meta : metadata) : text :=
  str " (Source: " ++ filename meta ++ str ", Chunk "
  ++ str_of_int (chunk_index meta + 1) ++ str ")".

(** [LLMAnswerGenerator._format_context(chunks, metadata)] *)
Definition format_context (chunks : list text)
    (metadata : option (list metadata)) : text :=
  match chunks with
  | [] => str "No relevant information found."
  | _ :: _ =>
      join_lines
        (imap (fun i chunk =>
                 let source :=
                   match metadata with
                   | Some (m :: ms) =>
                       match (m :: ms) !! i with
                       | Some meta => source_of meta
                       | None => []
                       end
                   | _ => []
                   end in
                 str "[" ++ str_of_nat (S i) ++ str "]" ++ source
                 ++ newline :: chunk ++ [newline])
              chunks)
  end.

(** [LLMAnswerGenerator._create_prompt(question, context)] *)
Definition create_prompt (question context : text) : text :=
  str "You are a helpful AI assistant that answers questions based on provided documents."
  ++ [newline; newline]
  ++ str "Use the following context to answer the question. If the context doesn't contain enough information to answer the question, say so clearly."
  ++ [newline; newline]
  ++ str "CONTEXT:" ++ [newline]
  ++ context ++ [newline; newline]
  ++ str "QUESTION: " ++ question ++ [newline; newline]
  ++ str "Please provide a clear, concise answer based on the context above. If you use information from the context, you can reference the source numbers [1], [2], etc.".

Section Provider.

(** The call to the provider chosen at construction, with the error string
    that each [_generate_*] method returns when the call fails. *)
Variable complete : text -> text.

(** [LLMAnswerGenerator.generate_answer(question, context_chunks, metadata)] *)
Definition generate_answer (question : text) (context_chunks : list text)
    (metadata : option (list metadata)) : text :=
  complete (create_prompt question (format_context context_chunks metadata)).

End Provider.

End Llm.

(** ** The rest of [display_results] in [src/cli/query_cli.py] *)

Module Cli.
Import Text Vectorize Callers Llm.

(** [doc[:80] + "..." if len(doc) > 80 else doc] *)
Definition preview (doc : text) : text :=
  if len doc >? 80 then slice doc 0 80 ++ str "..." else doc.

(** The colour of a similarity in the table. *)
Definition sim_color (similarity : Q) : text :=
  if Qle_bool 80 similarity then str "green"
  else if Qle_bool 70 similarity then str "yellow"
  else str "red".

(** A row of the table, but for the layout of the number in the
    similarity column. *)
Record table_row := TableRow {
  rank : text;
  color : text;
  score : Q;
  source : text;
  chunk_label : text;
  row_preview : text
}.

(** [for i, (doc, metadata, similarity) in enumerate(filtered_results, 1)] *)
Definition table_rows (r : results) (min_similarity : Q) : list table_row :=
  imap (fun i '(doc, meta, similarity) =>
          {| rank := str_of_nat (S i);
             color := sim_color similarity;
             score := similarity;
             source := filename meta;
             chunk_label :=
               str_of_int (chunk_index meta + 1) ++ str "/"
               ++ str_of_int (total_chunks meta);
             row_preview := preview doc |})
       (display_results r min_similarity).

(** The panel that [display_results] opens when the number [choice] is
    typed after the table: [documents[idx]] under the file name and the
    chunk number of [metadatas[idx]], for [idx = choice - 1].  No panel when
    there is no table, or when the number is not between 1 and
    [len(documents)]. *)
Definition detail_panel (r : results) (min_similarity : Q) (choice : nat)
  : option (text * metadata) :=
  match display_results r min_similarity with
  | [] => None
  | _ :: _ =>
      if (1 <=? Z.of_nat choice) && (Z.of_nat choice <=? len (documents r))
      then
        match documents r !! (choice - 1)%nat,
              metadatas r !! (choice - 1)%nat with
        | Some doc, Some meta => Some (doc, meta)
        | _, _ => None
        end
      else None
  end.

End Cli.

(** ** Notions used to state the properties, and test inputs *)

Module Spec.
Import Text Cleaner Vectorize Callers.

(** Position [p] of the text lies in a chunk: some chunk is the piece of
    the text that starts at a position [a] and spans [p]. *)
Definition covered (t : text) (chunks : list text) (p : nat) : Prop :=
  exists (c : text) (a : nat),
    c ∈ chunks /\ take (length c) (drop a t) = c /\
    (a <= p < a + length c)%nat.

(** The text begins, or ends, with whitespace. *)
Definition starts_space (t : text) : bool :=
  match t with
  | c :: _ => is_space c
  | [] => false
  end.

Definition ends_space (t : text) : bool := starts_space (rev t).

(** [c * n] *)
Definition times (c : ascii) (n : nat) : text := replicate n c.

(** A word, a space, and a word too long for what is left of the window. *)
Definition stuck_text : text := str "ab cdefg".

(** The same shape at the configured sizes: 900 characters, a space, and
    2000 characters without a space. *)
Definition stuck_text_default : text :=
  times "x" 900 ++ str " " ++ times "y" 2000.

(** 500 characters, the first of them a space. *)
Definition padded_500 : text := str " " ++ times "a" 499.

(** 1001 characters, the last of them a space. *)
Definition trailing_space_text : text := times "a" 1000 ++ str " ".

(** A candidate row contains the keyword, whatever the case. *)
Definition matches (keyword : text) (row : text * metadata * Q) : bool :=
  contains (lower keyword) (lower row.1.1).

(** The similarity of the specification, [max(0, 100 * (1 - distance / 2))]. *)
Definition similarity_spec (distance : Q) : Q :=
  Qmax 0 (100 * (1 - distance / 2)).

(** A row with its distance replaced by its similarity. *)
Definition with_similarity (row : text * metadata * Q) : text * metadata * Q :=
  (row.1.1, row.1.2, similarity_spec row.2).

(** The row reaches the threshold. *)
Definition keeps (min_similarity : Q) (row : text * metadata * Q) : bool :=
  Qle_bool min_similarity (similarity_spec row.2).

(** Rows by ascending distance, and rows by descending similarity. *)
Definition ascending (l : list (text * metadata * Q)) : Prop :=
  StronglySorted (fun a b => (a.2 <= b.2)%Q) l.

Definition descending (l : list (text * metadata * Q)) : Prop :=
  StronglySorted (fun a b => (b.2 <= a.2)%Q) l.

(** The metadata of chunk [i] of [n] of a file. *)
Definition meta_of (fname : string) (i n : Z) : metadata :=
  {| filename := str fname; filepath := str "/data/pdfs/" ++ str fname;
     chunk_index := i; total_chunks := n |}.

(** Ten candidates by ascending distance; the second, the fifth and the
    seventh contain the keyword "budget" in some case. *)
Definition ten_candidates : results :=
  {| documents :=
       [str "annual report"; str "the BUDGET plan"; str "minutes";
        str "travel policy"; str "budget cuts"; str "holiday list";
        str "A Budget."; str "press release"; str "org chart";
        str "phone book"];
     metadatas := map (fun i => meta_of "report.pdf" i 10) (seqZ 0 10);
     distances := map (fun i => inject_Z i / 10)%Q (seqZ 1 10) |}.

(** An index that holds the ten candidates, for any query text. *)
Definition ten_index (q : text) (n : Z) : results :=
  {| documents := slice (documents ten_candidates) 0 n;
     metadatas := slice (metadatas ten_candidates) 0 n;
     distances := slice (distances ten_candidates) 0 n |}.

(** An index that holds nothing. *)
Definition empty_index (q : text) (n : Z) : results := Results [] [] [].

(** Five rows with the distances 0.2, 0.8, 1.5, 1.9, 0.05. *)
Definition five_rows : results :=
  {| documents := [str "row 0"; str "row 1"; str "row 2"; str "row 3";
                   str "row 4"];
     metadatas := map (fun i => meta_of "report.pdf" i 5) (seqZ 0 5);
     distances := [2 # 10; 8 # 10; 15 # 10; 19 # 10; 5 # 100]%Q |}.

(** The same five rows as the index lists them, by rank: row 4 at the
    distance 0.05 first, then the rows 0, 1, 2 and 3. *)
Definition five_by_rank : results :=
  {| documents := [str "row 4"; str "row 0"; str "row 1"; str "row 2";
                   str "row 3"];
     metadatas := map (fun i => meta_of "report.pdf" i 5) [4; 0; 1; 2; 3];
     distances := [5 # 100; 2 # 10; 8 # 10; 15 # 10; 19 # 10]%Q |}.

(** Three rows by ascending distance. *)
Definition three_rows : results :=
  {| documents := [str "row 0"; str "row 1"; str "row 2"];
     metadatas := map (fun i => meta_of "report.pdf" i 3) (seqZ 0 3);
     distances := [5 # 100; 2 # 10; 15 # 10]%Q |}.

(** A document named "report.pdf" whose content makes three chunks. *)
Definition report_doc : gmap string text :=
  {[ "filename" := str "report.pdf";
     "filepath" := str "/data/pdfs/report.pdf";
     "cleaned_markdown" := times "a" 2400 ]}.

(** A document whose content is the text on which [chunk_text] stalls at
    the configured sizes. *)
Definition stuck_doc : gmap string text :=
  {[ "filename" := str "notes.pdf";
     "filepath" := str "/data/pdfs/notes.pdf";
     "content" := stuck_text_default ]}.

(** Writing a list of records one after the other, each under its id. *)
Definition upsert_all (recs : list (text * record)) (c : gmap text record)
  : gmap text record :=
  foldl (fun c '(id, r) => <[id := r]> c) c recs.

End Spec.

(** ** The threshold of the session in [main] of [src/cli/query_cli.py] *)

Module Session.

(** The command [threshold <number>]: [arg] is the number that
    [float(query.split()[1])] reads, [None] when it reads none; a number
    outside [0, 100] is refused and the threshold stays. *)
Definition threshold_command (min_similarity : Q) (arg : option Q) : Q :=
  match arg with
  | Some new_threshold =>
      if Qle_bool 0 new_threshold && Qle_bool new_threshold 100
      then new_threshold
      else min_similarity
  | None => min_similarity
  end.

(** The threshold after a series of such commands, from
    [min_similarity = 60.0]. *)
Definition threshold_after (args : list (option Q)) : Q :=
  foldl threshold_command 60%Q args.

End Session.

(** ** Notions used to state the properties of the rest of the code *)

Module Notions.
Import Text Cleaner Vectorize.

(** The arguments of the calls to [collection.add] that [add_documents]
    makes for the lists it has gathered, one triple for each pass through
    the loop over [range(0, len(all_chunks), batch_size)]. *)
Definition batches (p : pending)
  : list (list text * list metadata * list text) :=
  map (fun i =>
         let batch_end := Z.min (i + batch_size) (len (all_chunks p)) in
         (slice (all_chunks p) i batch_end,
          slice (all_metadatas p) i batch_end,
          slice (all_ids p) i batch_end))
      (range_step (len (all_chunks p)) batch_size).

(** The id of a record is the one that its metadata spell out, and the
    index of the chunk lies below the number of chunks of its document. *)
Definition id_matches (id : text) (m : metadata) : Prop :=
  id = chunk_id (filename m) (Z.to_nat (chunk_index m)) /\
  0 <= chunk_index m < total_chunks m.

(** The metadata that [add_documents] gives to chunk [i] of [n] of a
    document. *)
Definition chunk_meta (doc : gmap string text) (i : nat) (n : Z) : metadata :=
  {| filename := get doc "filename" (str "unknown");
     filepath := get doc "filepath" [];
     chunk_index := Z.of_nat i;
     total_chunks := n |}.

(** Two versions of a report under one file name: 2400 characters, which
    make three chunks, and 300 characters, which make one. *)
Definition report_v1 : gmap string text :=
  {[ "filename" := str "report.pdf";
     "cleaned_markdown" := Spec.times "a" 2400 ]}.

Definition report_v2 : gmap string text :=
  {[ "filename" := str "report.pdf";
     "cleaned_markdown" := Spec.times "b" 300 ]}.

(** A document as [load_pdfs] and [convert_to_markdown] leave it. *)
Definition raw_doc : gmap string text :=
  {[ "filename" := str "notes.pdf";
     "filepath" := str "/data/pdfs/notes.pdf";
     "markdown" := (str "  # notes.pdf  " ++ [Markdown.newline]
                    ++ str "  first   line  ") ]}.

(** A document without any text. *)
Definition blank_doc : gmap string text :=
  {[ "filename" := str "blank.pdf" ]}.

End Notions.

(** * Properties *)

(** ** Slices, searches and stripping *)

Module TextFacts.
Import Text.

Lemma len_nonneg {A} (l : list A) : 0 <= len l.
Proof. unfold len. lia. Qed.

Lemma clamp_index_nonneg n i : 0 <= i -> clamp_index n i = Z.min i n.
Proof. intros H. unfold clamp_index. destruct (Z.ltb_spec i 0); [lia | done]. Qed.

Lemma clamp_index_range n i : 0 <= n -> 0 <= clamp_index n i <= n.
Proof. intros H. unfold clamp_index. destruct (Z.ltb_spec i 0); lia. Qed.

(** A slice between two natural bounds is a [take] of a [drop]. *)
Lemma slice_nat {A} (l : list A) (a b : nat) :
  slice l (Z.of_nat a) (Z.of_nat b) = take (b - a) (drop a l).
Proof.
  unfold slice. rewrite !clamp_index_nonneg by lia. unfold len.
  destruct (Nat.le_gt_cases a (length l)) as [Ha | Ha].
  - replace (Z.to_nat (Z.of_nat a `min` Z.of_nat (length l))) with a by lia.
    destruct (Nat.le_gt_cases b (length l)) as [Hb | Hb].
    + f_equal. lia.
    + rewrite !take_ge; [done | | ]; rewrite length_drop; lia.
  - rewrite !drop_ge by lia. by rewrite !take_nil.
Qed.

Lemma length_slice_le {A} (l : list A) (s e : Z) :
  0 <= s -> 0 <= e -> len (slice l s e) <= Z.max 0 (e - s).
Proof.
  intros Hs He. unfold slice, len. rewrite length_take, length_drop.
  rewrite !clamp_index_nonneg by done. lia.
Qed.

Lemma rfind_scan_range sub t lo k :
  rfind_scan sub t lo k = -1 \/
  lo <= rfind_scan sub t lo k <= lo + Z.of_nat k.
Proof.
  induction k as [| k IH]; simpl rfind_scan.
  - destruct (starts_with _ _); lia.
  - destruct (starts_with _ _); [lia |]. destruct IH as [-> | IH]; lia.
Qed.

(** An occurrence found by [rfind] lies inside the searched window. *)
Lemma rfind_range sub t start stop :
  rfind sub t start stop = -1 \/
  (clamp_index (len t) start <= rfind sub t start stop /\
   rfind sub t start stop + len sub <= clamp_index (len t) stop).
Proof.
  unfold rfind. destruct (Z.ltb_spec (clamp_index (len t) stop
                                      - clamp_index (len t) start) (len sub));
    [by left |].
  destruct (rfind_scan_range sub t (clamp_index (len t) start)
              (Z.to_nat (clamp_index (len t) stop - clamp_index (len t) start
                         - len sub))) as [-> | Hr]; [by left | right].
  pose proof (len_nonneg sub). lia.
Qed.

Lemma length_lstrip t : (length (lstrip t) <= length t)%nat.
Proof.
  induction t as [| c t IH]; simpl; [lia |]. destruct (is_space c); simpl; lia.
Qed.

Lemma length_rstrip t : (length (rstrip t) <= length t)%nat.
Proof.
  unfold rstrip. rewrite length_rev.
  etrans; [apply length_lstrip |]. by rewrite length_rev.
Qed.

Lemma length_strip t : (length (strip t) <= length t)%nat.
Proof.
  unfold strip. etrans; [apply length_rstrip | apply length_lstrip].
Qed.

(** [lstrip] drops a prefix of whitespace. *)
Lemma lstrip_drop t :
  exists a : nat, lstrip t = drop a t /\ (a <= length t)%nat /\
                  Forall (fun c => is_space c = true) (take a t).
Proof.
  induction t as [| c t (a & Ha & Hl & Hs)]; simpl.
  - exists 0%nat. by repeat split.
  - destruct (is_space c) eqn:Hc.
    + exists (S a). simpl. repeat split; [done | lia | by constructor].
    + exists 0%nat. simpl. repeat split; [lia | constructor].
Qed.

(** [rstrip] drops a suffix of whitespace. *)
Lemma rstrip_take t :
  exists b : nat, rstrip t = take b t /\ (b <= length t)%nat /\
                  Forall (fun c => is_space c = true) (drop b t).
Proof.
  unfold rstrip. destruct (lstrip_drop (rev t)) as (a & Ha & Hl & Hs).
  rewrite length_rev in Hl.
  exists (length t - a)%nat. rewrite Ha. repeat split; [| lia |].
  - change (drop a (rev t)) with (skipn a (rev t)).
    rewrite skipn_rev. apply rev_involutive.
  - change (take a (rev t)) with (firstn a (rev t)) in Hs.
    rewrite firstn_rev in Hs. apply Forall_rev in Hs.
    by rewrite rev_involutive in Hs.
Qed.

Lemma lstrip_id t : Spec.starts_space t = false -> lstrip t = t.
Proof. destruct t as [| c t]; simpl; [done |]. by intros ->. Qed.

Lemma lstrip_shorter t :
  Spec.starts_space t = true -> (length (lstrip t) < length t)%nat.
Proof.
  destruct t as [| c t]; simpl; [done |]. intros ->.
  pose proof (length_lstrip t). lia.
Qed.

(** [strip] leaves a text as it is exactly when the text neither begins
    nor ends with whitespace. *)
Lemma strip_id_iff t :
  strip t = t <-> Spec.starts_space t = false /\ Spec.ends_space t = false.
Proof.
  unfold strip, rstrip, Spec.ends_space. split.
  - intros Heq.
    destruct (Spec.starts_space t) eqn:Hs.
    + pose proof (lstrip_shorter t Hs) as Hlt.
      pose proof (length_lstrip (rev (lstrip t))) as Hle.
      apply (f_equal length) in Heq. rewrite !length_rev in *. lia.
    + split; [done |]. rewrite (lstrip_id t Hs) in Heq.
      destruct (Spec.starts_space (rev t)) eqn:Hr; [| done].
      pose proof (lstrip_shorter (rev t) Hr) as Hlt.
      apply (f_equal length) in Heq. rewrite !length_rev in *. lia.
  - intros [Hs Hr]. rewrite (lstrip_id t Hs), (lstrip_id (rev t) Hr).
    apply rev_involutive.
Qed.

(** [strip] keeps a piece of the text, with only whitespace before it
    and after it. *)
Lemma strip_piece (w : text) :
  exists a b : nat,
    strip w = take b (drop a w) /\ (a + b <= length w)%nat /\
    Forall (fun c => is_space c = true) (take a w) /\
    Forall (fun c => is_space c = true) (drop (a + b) w).
Proof.
  unfold strip. destruct (lstrip_drop w) as (a & -> & Ha & Hsa).
  destruct (rstrip_take (drop a w)) as (b & -> & Hb & Hsb).
  rewrite length_drop in Hb. rewrite drop_drop in Hsb.
  exists a, b. repeat split; [lia | done | done].
Qed.

End TextFacts.

(** ** The chunker *)

Module ChunkerFacts.
Import Text Cleaner TextFacts.

Lemma loop_body_eq t cs ov start chunks :
  loop_body t cs ov (start, chunks) =
  (next_start ov (window_end t cs start),
   chunks ++ [strip (slice t start (window_end t cs start))]).
Proof. reflexivity. Qed.

(** The window is never empty and never wider than [chunk_size]: the
    boundary search only moves its right edge back, and never onto or
    before [start]. *)
Lemma window_end_bounds t cs start :
  0 <= start -> 1 <= cs ->
  start < window_end t cs start <= start + cs.
Proof.
  intros Hs Hcs. unfold window_end.
  destruct (Z.ltb_spec (start + cs) (len t)) as [He | He]; [| lia].
  pose proof (rfind_range (str ". ") t start (start + cs)) as H1.
  pose proof (rfind_range (str "! ") t start (start + cs)) as H2.
  pose proof (rfind_range (str "? ") t start (start + cs)) as H3.
  pose proof (rfind_range (str " ") t start (start + cs)) as H4.
  rewrite (clamp_index_nonneg _ start) in H1, H2, H3, H4 by lia.
  rewrite (clamp_index_nonneg _ (start + cs)) in H1, H2, H3, H4 by lia.
  change (len (str ". ")) with 2 in H1. change (len (str "! ")) with 2 in H2.
  change (len (str "? ")) with 2 in H3. change (len (str " ")) with 1 in H4.
  rewrite !Z.gtb_ltb.
  destruct (Z.ltb_spec start
              (Z.max (Z.max (rfind (str ". ") t start (start + cs))
                            (rfind (str "! ") t start (start + cs)))
                     (rfind (str "? ") t start (start + cs)))); [lia |].
  destruct (Z.ltb_spec start (rfind (str " ") t start (start + cs))); lia.
Qed.

Lemma next_start_pos ov e : 0 < e -> 0 < next_start ov e.
Proof. intros He. unfold next_start. destruct (Z.leb_spec (e - ov) 0); lia. Qed.

(** Every chunk carved by the loop body is at most [chunk_size] long. *)
Lemma loop_body_chunk_len t cs ov start chunks :
  0 <= start -> 1 <= cs ->
  Forall (fun c => len c <= cs) chunks ->
  0 <= fst (loop_body t cs ov (start, chunks)) /\
  Forall (fun c => len c <= cs) (snd (loop_body t cs ov (start, chunks))).
Proof.
  intros Hs Hcs Hall. rewrite loop_body_eq. simpl.
  pose proof (window_end_bounds t cs start Hs Hcs) as Hw. split.
  - pose proof (next_start_pos ov (window_end t cs start)). lia.
  - apply Forall_app. split; [done |]. constructor; [| constructor].
    pose proof (length_strip (slice t start (window_end t cs start))).
    pose proof (length_slice_le t start (window_end t cs start)).
    unfold len in *. lia.
Qed.

Lemma loop_after_chunk_len n t cs ov :
  1 <= cs ->
  0 <= fst (loop_after n t cs ov) /\
  Forall (fun c => len c <= cs) (snd (loop_after n t cs ov)).
Proof.
  intros Hcs. unfold loop_after. induction n as [| n [IH1 IH2]]; simpl.
  - split; [lia | constructor].
  - destruct (Nat.iter n _ _) as [start chunks].
    by apply loop_body_chunk_len.
Qed.

Lemma chunk_loop_chunk_len fuel t cs ov st chunks :
  1 <= cs -> 0 <= fst st -> Forall (fun c => len c <= cs) (snd st) ->
  chunk_loop fuel t cs ov st = Some chunks ->
  Forall (fun c => len c <= cs) chunks.
Proof.
  intros Hcs. revert st. induction fuel as [| fuel IH]; intros [start acc];
    simpl; intros Hs Hall; destruct (start <? len t); try done.
  - by intros [= <-].
  - apply IH; by apply loop_body_chunk_len.
  - by intros [= <-].
Qed.

(** Once the loop has returned with some fuel, more fuel changes nothing. *)
Lemma chunk_loop_fuel_mono fuel k t cs ov st chunks :
  chunk_loop fuel t cs ov st = Some chunks ->
  chunk_loop (fuel + k) t cs ov st = Some chunks.
Proof.
  revert st. induction fuel as [| fuel IH]; intros st; simpl.
  - destruct (fst st <? len t) eqn:E; [done |]. intros H.
    destruct k; simpl; by rewrite E.
  - destruct (fst st <? len t) eqn:E; [apply IH | done].
Qed.

(** With [overlap <= 0] every pass moves [start] forward, and the loop
    returns within [len(text)] passes. *)
Lemma chunk_loop_terminates fuel t cs ov st :
  1 <= cs -> ov <= 0 -> 0 <= fst st ->
  len t - fst st <= Z.of_nat fuel ->
  exists chunks, chunk_loop fuel t cs ov st = Some chunks.
Proof.
  intros Hcs Hov. revert st. induction fuel as [| fuel IH]; intros [start acc];
    simpl; intros Hs Hfuel; destruct (Z.ltb_spec start (len t)); eauto; [lia |].
  apply IH; unfold loop_body; simpl fst;
    pose proof (window_end_bounds t cs start Hs Hcs);
    unfold next_start; destruct (Z.leb_spec (window_end t cs start - ov) 0); lia.
Qed.

Lemma chunk_loop_stuck fuel t cs ov start acc :
  start < len t ->
  next_start ov (window_end t cs start) = start ->
  chunk_loop fuel t cs ov (start, acc) = None.
Proof.
  intros Hlt Hfix. revert acc. induction fuel as [| fuel IH]; intros acc;
    simpl; destruct (Z.ltb_spec start (len t)); try lia; [done |].
  rewrite Hfix. apply IH.
Qed.

(** A text on which the second pass of the loop returns to the [start] it
    began with: the loop never ends. *)
Lemma chunk_text_stuck fuel t cs ov :
  cs < len t -> 0 < len t ->
  next_start ov (window_end t cs 0) < len t ->
  next_start ov (window_end t cs (next_start ov (window_end t cs 0)))
  = next_start ov (window_end t cs 0) ->
  chunk_text fuel t cs ov = None.
Proof.
  intros Hcs Hlen Hlt Hfix. unfold chunk_text.
  destruct (Z.leb_spec (len t) cs); [lia |].
  destruct fuel as [| fuel]; simpl; destruct (Z.ltb_spec 0 (len t)); try lia;
    [done |].
  by apply chunk_loop_stuck.
Qed.

(** C3.  [chunk_text] does not terminate on every text when
    [0 <= overlap < chunk_size]: on "ab cdefg" with [chunk_size = 3] and
    [overlap = 1] the window that starts at 1 ends at the space at 2, which
    is beyond the overlap, and the next [start] is 1 again; whatever the
    fuel, the loop is still running.  The same happens with the configured
    [chunk_size = 1000] and [overlap = 200] on a text whose first space is
    followed by a long run without spaces. *)
Theorem chunk_text_stalls :
  (0 <= 1 < 3 /\
   window_end Spec.stuck_text 3 1 = 2 /\ 2 > 1 /\ next_start 1 2 = 1 /\
   forall fuel, chunk_text fuel Spec.stuck_text 3 1 = None) /\
  (0 <= 200 < 1000 /\
   window_end Spec.stuck_text_default 1000 700 = 900 /\ 900 > 200 /\
   next_start 200 900 = 700 /\
   forall fuel, chunk_text fuel Spec.stuck_text_default 1000 200 = None).
Proof.
  split; (split; [lia |]); (split; [by vm_compute |]);
    (split; [lia |]); (split; [by vm_compute |]);
    intros fuel; apply chunk_text_stuck; by vm_compute.
Qed.

(** C9.  For [chunk_size >= 1] and any overlap, every chunk that
    [chunk_text] returns is at most [chunk_size] long, and so is every chunk
    appended by any number of passes through the loop: a window that starts
    at [start >= 0] ends after [start] and at or before [start +
    chunk_size], and stripping only shortens the slice. *)
Theorem chunk_text_chunk_len (t : text) (cs ov : Z) :
  1 <= cs ->
  (forall fuel chunks,
     chunk_text fuel t cs ov = Some chunks ->
     Forall (fun c => len c <= cs) chunks) /\
  (forall n, Forall (fun c => len c <= cs) (snd (loop_after n t cs ov))) /\
  (forall start, 0 <= start ->
     start < window_end t cs start <= start + cs) /\
  (forall c : text, len (strip c) <= len c).
Proof.
  intros Hcs. repeat split.
  - intros fuel chunks. unfold chunk_text.
    destruct (Z.leb_spec (len t) cs).
    + intros [= <-]. by repeat constructor.
    + apply chunk_loop_chunk_len; simpl; [done | lia | constructor].
  - intros n. by apply loop_after_chunk_len.
  - by apply window_end_bounds.
  - by apply window_end_bounds.
  - intros c. pose proof (length_strip c). unfold len. lia.
Qed.

Lemma chunk_text_chunk_len_witness :
  1 <= 3 /\
  chunk_text 4 (str "abcdefgh") 3 0
  = Some [str "abc"; str "def"; str "gh"] /\
  Forall (fun c : text => len c <= 3) [str "abc"; str "def"; str "gh"].
Proof.
  split; [lia |]. split; [by vm_compute |].
  apply (proj1 (chunk_text_chunk_len (str "abcdefgh") 3 0 ltac:(lia)) 4%nat).
  by vm_compute.
Defined.

(** C7, as stated, fails: a text of length 500 that begins with a space
    comes back as it is, not stripped. *)
Lemma chunk_text_500_not_stripped :
  len Spec.padded_500 = 500 /\
  chunk_text 0 Spec.padded_500 1000 200 = Some [Spec.padded_500] /\
  chunk_text 0 Spec.padded_500 1000 200 <> Some [strip Spec.padded_500].
Proof.
  split; [by vm_compute |]. split; [by vm_compute |].
  intros H.
  apply (f_equal (fun o => match o with
                           | Some [c] => len c
                           | _ => 0
                           end)) in H.
  vm_compute in H. discriminate H.
Qed.

(** C7, amended.  With [chunk_size = 1000] and [overlap = 200], a text of
    length 500 comes back as exactly one chunk, the text itself, unchanged;
    that chunk is the stripped text exactly when the text neither begins nor
    ends with whitespace. *)
Theorem chunk_text_500_single (fuel : nat) (t : text) :
  len t = 500 ->
  chunk_text fuel t 1000 200 = Some [t] /\
  (strip t = t <->
   Spec.starts_space t = false /\ Spec.ends_space t = false).
Proof.
  intros Hlen. split; [| apply strip_id_iff].
  unfold chunk_text. rewrite Hlen. reflexivity.
Qed.

Lemma chunk_text_500_single_witness :
  len (Spec.times "a" 500) = 500 /\
  chunk_text 0 (Spec.times "a" 500) 1000 200 = Some [Spec.times "a" 500].
Proof.
  split; [by vm_compute |].
  apply (chunk_text_500_single 0 (Spec.times "a" 500)). by vm_compute.
Defined.

(** C8, as stated, fails: with [overlap >= chunk_size], and with
    [overlap < 0], [chunk_text] returns chunks. *)
Lemma chunk_text_accepts_bad_overlap :
  (5 >= 3 /\ chunk_text 0 (str "ab") 3 5 = Some [str "ab"]) /\
  (-1 < 0 /\
   chunk_text 2 (str "abcdefgh") 3 (-1) = Some [str "abc"; str "efg"]).
Proof. repeat split; by vm_compute. Qed.

(** C8, amended.  [chunk_text] checks neither parameter and raises no
    error: when [overlap >= chunk_size] or [overlap < 0], a text no longer
    than [chunk_size] comes back as the single chunk [[text]]; and for
    [overlap < 0] and [chunk_size >= 1] the loop runs to its end, within
    [len(text)] passes, and returns chunks. *)
Theorem chunk_text_no_validation (t : text) (cs ov : Z) :
  ov >= cs \/ ov < 0 ->
  (len t <= cs -> forall fuel, chunk_text fuel t cs ov = Some [t]) /\
  (ov < 0 -> 1 <= cs ->
   exists chunks, forall fuel,
     (length t <= fuel)%nat -> chunk_text fuel t cs ov = Some chunks).
Proof.
  intros _. split.
  - intros Hlen fuel. unfold chunk_text.
    by destruct (Z.leb_spec (len t) cs); [| lia].
  - intros Hov Hcs. unfold chunk_text.
    destruct (Z.leb_spec (len t) cs); [by exists [t] |].
    destruct (chunk_loop_terminates (length t) t cs ov (0, []))
      as [chunks Hc]; [done | lia | simpl; lia | simpl; unfold len; lia |].
    exists chunks. intros fuel Hfuel.
    replace fuel with (length t + (fuel - length t))%nat by lia.
    by apply chunk_loop_fuel_mono.
Qed.

Lemma chunk_text_no_validation_witness :
  (-1 >= 3 \/ -1 < 0) /\
  exists chunks, forall fuel,
    (length (str "abcdefgh") <= fuel)%nat ->
    chunk_text fuel (str "abcdefgh") 3 (-1) = Some chunks.
Proof.
  split; [right; lia |].
  apply (chunk_text_no_validation (str "abcdefgh") 3 (-1)); lia.
Defined.

Lemma covered_app_l t l1 l2 p :
  Spec.covered t l1 p -> Spec.covered t (l1 ++ l2) p.
Proof.
  intros (c & a & Hc & Ht & Hp). exists c, a.
  split; [apply elem_of_app; by left | done].
Qed.

Lemma covered_app_r t l1 l2 p :
  Spec.covered t l2 p -> Spec.covered t (l1 ++ l2) p.
Proof.
  intros (c & a & Hc & Ht & Hp). exists c, a.
  split; [apply elem_of_app; by right | done].
Qed.

(** The character at a covered position occurs in a chunk. *)
Lemma covered_elem t chunks p :
  Spec.covered t chunks p ->
  exists (c : text) (x : ascii), c ∈ chunks /\ t !! p = Some x /\ x ∈ c.
Proof.
  intros (c & a & Hc & Ht & Hp).
  destruct (lookup_lt_is_Some_2 c (p - a)%nat ltac:(lia)) as [x Hx].
  exists c, x. split; [done |]. split; [| by eapply list_elem_of_lookup_2].
  rewrite <- Ht in Hx. rewrite lookup_take_lt in Hx by lia.
  rewrite lookup_drop in Hx. by replace (a + (p - a))%nat with p in Hx by lia.
Qed.

(** A character other than whitespace that lies in the window lies in the
    chunk cut from it. *)
Lemma window_chunk_covers t start e (p : nat) x :
  0 <= start -> start <= Z.of_nat p < e ->
  t !! p = Some x -> is_space x = false ->
  Spec.covered t [strip (slice t start e)] p.
Proof.
  intros Hs Hp Hx Hns.
  replace start with (Z.of_nat (Z.to_nat start)) by lia.
  replace e with (Z.of_nat (Z.to_nat e)) by lia.
  rewrite slice_nat.
  set (s := Z.to_nat start). set (k := (Z.to_nat e - s)%nat).
  assert (s <= p /\ p - s < k)%nat as [Hsp Hpk] by lia.
  set (w := take k (drop s t)).
  assert (w !! (p - s)%nat = Some x) as Hw.
  { unfold w. rewrite lookup_take_lt by done. rewrite lookup_drop.
    by replace (s + (p - s))%nat with p by lia. }
  destruct (strip_piece w) as (a & b & -> & Hab & Hsa & Hsb).
  assert (a <= p - s)%nat as Hlo.
  { destruct (Nat.le_gt_cases a (p - s)) as [| Hlt]; [done | exfalso].
    rewrite Forall_lookup in Hsa.
    specialize (Hsa (p - s)%nat x). rewrite lookup_take_lt in Hsa by done.
    rewrite (Hsa Hw) in Hns. discriminate. }
  assert (p - s < a + b)%nat as Hhi.
  { destruct (Nat.le_gt_cases (a + b) (p - s)) as [Hge |]; [exfalso | done].
    rewrite Forall_lookup in Hsb.
    specialize (Hsb (p - s - (a + b))%nat x). rewrite lookup_drop in Hsb.
    replace (a + b + (p - s - (a + b)))%nat with (p - s)%nat in Hsb by lia.
    rewrite (Hsb Hw) in Hns. discriminate. }
  assert (length w <= k)%nat as Hwk.
  { unfold w. rewrite length_take. lia. }
  exists (take b (drop a w)), (s + a)%nat.
  split; [apply list_elem_of_singleton; done |].
  rewrite length_take, length_drop.
  replace (b `min` (length w - a))%nat with b by lia.
  split; [| lia].
  unfold w. rewrite <- (drop_drop t a s).
  replace k with (a + (k - a))%nat at 1 by lia.
  rewrite <- take_drop_commute, take_take.
  f_equal. lia.
Qed.

Lemma chunk_loop_covers fuel t cs ov st chunks (E : Z) :
  1 <= cs -> 0 <= ov -> 0 <= fst st -> fst st <= E ->
  (forall (p : nat) x, Z.of_nat p < E -> t !! p = Some x ->
                       is_space x = false -> Spec.covered t (snd st) p) ->
  chunk_loop fuel t cs ov st = Some chunks ->
  forall (p : nat) x, t !! p = Some x -> is_space x = false ->
                      Spec.covered t chunks p.
Proof.
  intros Hcs Hov. revert st E.
  assert (forall st E, 0 <= fst st -> fst st <= E ->
            (forall (p : nat) x, Z.of_nat p < E -> t !! p = Some x ->
               is_space x = false -> Spec.covered t (snd st) p) ->
            len t <= fst st ->
            forall (p : nat) x, t !! p = Some x -> is_space x = false ->
                                Spec.covered t (snd st) p) as Hexit.
  { intros st E Hs HE Hcov Hlen p x Hx Hns. apply (Hcov p x); [| done | done].
    apply lookup_lt_Some in Hx. unfold len in Hlen. lia. }
  induction fuel as [| fuel IH]; intros [start acc] E; simpl;
    intros Hs HE Hcov; destruct (Z.ltb_spec start (len t)) as [Hlt | Hge];
    try done.
  - intros [= <-]. by apply (Hexit (start, acc) E).
  - pose proof (window_end_bounds t cs start Hs Hcs) as Hw.
    apply (IH _ (Z.max E (window_end t cs start))); simpl.
    + pose proof (next_start_pos ov (window_end t cs start)). lia.
    + unfold next_start.
      destruct (Z.leb_spec (window_end t cs start - ov) 0); lia.
    + intros p x Hp Hx Hns.
      destruct (Z.lt_ge_cases (Z.of_nat p) E) as [HpE | HpE].
      * apply covered_app_l. by apply (Hcov p x).
      * apply covered_app_r. apply (window_chunk_covers t _ _ p x); [| | done ..];
          lia.
  - intros [= <-]. by apply (Hexit (start, acc) E).
Qed.

(** C6, as stated, fails: with the configured sizes, the last character
    of 1000 letters followed by a space lies in no chunk, because the slice
    that holds it is stripped. *)
Lemma chunk_text_drops_edge_space :
  chunk_text 2 Spec.trailing_space_text 1000 200
  = Some [Spec.times "a" 1000; Spec.times "a" 200] /\
  Spec.trailing_space_text !! 1000%nat = Some " "%char /\
  ~ Spec.covered Spec.trailing_space_text
      [Spec.times "a" 1000; Spec.times "a" 200] 1000.
Proof.
  split; [by vm_compute |]. split; [by vm_compute |].
  intros (c & x & Hc & Hx & Hin)%covered_elem.
  assert (x = " "%char) as -> by (vm_compute in Hx; congruence).
  apply elem_of_cons in Hc as [-> | Hc];
    [| apply list_elem_of_singleton in Hc as ->];
    apply elem_of_replicate in Hin as [Hin _]; discriminate Hin.
Qed.

(** C6, amended.  For [chunk_size >= 1] and [overlap >= 0], when
    [chunk_text] returns, every character of the text that is not
    whitespace lies in at least one chunk, and that chunk is a contiguous
    piece of the text that spans the position of the character. *)
Theorem chunk_text_covers (fuel : nat) (t : text) (cs ov : Z)
    (chunks : list text) :
  1 <= cs -> 0 <= ov ->
  chunk_text fuel t cs ov = Some chunks ->
  forall (p : nat) (x : ascii),
    t !! p = Some x -> is_space x = false -> Spec.covered t chunks p.
Proof.
  intros Hcs Hov. unfold chunk_text. destruct (Z.leb_spec (len t) cs).
  - intros [= <-] p x Hx _. exists t, 0%nat.
    split; [by apply list_elem_of_singleton |]. rewrite drop_0, firstn_all.
    split; [done |]. apply lookup_lt_Some in Hx. lia.
  - apply (chunk_loop_covers fuel t cs ov (0, []) chunks 0); simpl;
      [done | done | lia | lia |].
    intros p x Hp. lia.
Qed.

Lemma chunk_text_covers_witness :
  1 <= 1000 /\ 0 <= 200 /\
  chunk_text 2 Spec.trailing_space_text 1000 200
  = Some [Spec.times "a" 1000; Spec.times "a" 200] /\
  Spec.trailing_space_text !! 999%nat = Some "a"%char /\
  is_space "a" = false /\
  Spec.covered Spec.trailing_space_text
    [Spec.times "a" 1000; Spec.times "a" 200] 999.
Proof.
  split; [lia |]. split; [lia |]. split; [by vm_compute |].
  split; [by vm_compute |]. split; [by vm_compute |].
  apply (chunk_text_covers 2 Spec.trailing_space_text 1000 200 _
           ltac:(lia) ltac:(lia) ltac:(by vm_compute) 999%nat "a"%char);
    by vm_compute.
Defined.

End ChunkerFacts.

(** ** The index wrapper *)

Module VectorizeFacts.
Import Text Vectorize.

Lemma zip3_triples {A B C} (l : list (A * B * C)) :
  zip3 (map (fun r => r.1.1) l) (map (fun r => r.1.2) l) (map snd l) = l.
Proof. induction l as [| [[a b] c] l IH]; simpl; by f_equal. Qed.

Lemma zip3_nil_l {B C} (b : list B) (c : list C) : zip3 (@nil text) b c = [].
Proof. reflexivity. Qed.

(** The keyword loop appends the first matches, in rank order, until the
    lists hold [n_results] rows, and at least one match if there is one. *)
Lemma keyword_loop_fields kwl n cands acc :
  let kept :=
    take (Z.to_nat (Z.max 1 (n - len (documents acc))))
         (List.filter (fun r => contains kwl (lower r.1.1)) cands) in
  keyword_loop kwl n cands acc =
  {| documents := documents acc ++ map (fun r => r.1.1) kept;
     metadatas := metadatas acc ++ map (fun r => r.1.2) kept;
     distances := distances acc ++ map snd kept |}.
Proof.
  revert acc. induction cands as [| [[doc meta] dist] rest IH]; intros acc.
  - simpl. rewrite take_nil. simpl. rewrite !app_nil_r. by destruct acc.
  - simpl. destruct (contains kwl (lower doc)) eqn:Hm; [| apply IH].
    unfold len. simpl. rewrite length_app. simpl.
    destruct (Z.geb_spec (Z.of_nat (length (documents acc) + 1)) n) as [Hge | Hlt].
    + replace (Z.to_nat (Z.max 1 (n - Z.of_nat (length (documents acc)))))
        with 1%nat by lia.
      simpl. by rewrite ?take_0.
    + rewrite IH. simpl. unfold len. rewrite length_app. simpl.
      replace (Z.to_nat (Z.max 1 (n - Z.of_nat (length (documents acc)))))
        with (S (Z.to_nat (Z.max 1 (n - Z.of_nat (length (documents acc) + 1)))))
        by lia.
      simpl. by rewrite <- !app_assoc.
Qed.

Section Query.
Variable collection_query : text -> Z -> results.

Lemma query_unset q n : query collection_query q n None = collection_query q n.
Proof. reflexivity. Qed.

Lemma query_empty_keyword q n :
  query collection_query q n (Some []) = collection_query q n.
Proof. reflexivity. Qed.

Lemma query_keyword_rows q n k kw :
  rows (query collection_query q n (Some (k :: kw))) =
  take (Z.to_nat (Z.max 1 n))
       (List.filter (Spec.matches (k :: kw)) (rows (collection_query q (n * 3)))).
Proof.
  unfold query. simpl truthy. cbv iota.
  destruct (documents (collection_query q (n * 3))) eqn:Hd.
  - unfold rows. rewrite Hd. simpl. by rewrite take_nil.
  - rewrite keyword_loop_fields. unfold rows at 1. simpl.
    rewrite Z.sub_0_r. apply zip3_triples.
Qed.

End Query.

(** C4.  With a keyword filter that is set (a string that is not empty)
    [query] asks the index for [n_results * 3] candidates, and keeps, in
    their rank order, the candidates whose text contains the keyword
    whatever the case, up to the first [n_results] (for [n_results >= 1]);
    without a keyword filter it asks for [n_results] and returns what the
    index returns.  With ten candidates of which the second, the fifth and
    the seventh match, and [n_results = 5], it returns those three rows, in
    that order. *)
Theorem query_keyword_filter (collection_query : text -> Z -> results)
    (q : text) (n : Z) (k : ascii) (kw : text) :
  1 <= n ->
  rows (query collection_query q n (Some (k :: kw))) =
    take (Z.to_nat n)
         (List.filter (Spec.matches (k :: kw))
                      (rows (collection_query q (n * 3)))) /\
  len (documents (query collection_query q n (Some (k :: kw)))) <= n /\
  query collection_query q n None = collection_query q n /\
  rows (query Spec.ten_index q 5 (Some (str "Budget"))) =
    [(str "the BUDGET plan", Spec.meta_of "report.pdf" 1 10, (2 / 10)%Q);
     (str "budget cuts", Spec.meta_of "report.pdf" 4 10, (5 / 10)%Q);
     (str "A Budget.", Spec.meta_of "report.pdf" 6 10, (7 / 10)%Q)].
Proof.
  intros Hn. split; [| split; [| split]].
  - rewrite query_keyword_rows. f_equal. lia.
  - unfold query. simpl truthy. cbv iota.
    destruct (documents (collection_query q (n * 3))) eqn:Hd.
    + rewrite Hd. unfold len. simpl. lia.
    + rewrite keyword_loop_fields. simpl. unfold len.
      rewrite length_map, length_take. simpl. lia.
  - apply query_unset.
  - change (str "Budget") with ("B"%char :: str "udget").
    rewrite query_keyword_rows. by vm_compute.
Qed.

Lemma query_keyword_filter_witness :
  1 <= 5 /\
  rows (query Spec.ten_index (str "money") 5 (Some (str "Budget"))) =
    take (Z.to_nat 5)
         (List.filter (Spec.matches (str "Budget"))
                      (rows (Spec.ten_index (str "money") (5 * 3)))).
Proof.
  split; [lia |].
  apply (query_keyword_filter Spec.ten_index (str "money") 5 "B" (str "udget")).
  lia.
Defined.

(** C10.  An empty keyword filter is no keyword filter: whatever the index
    holds, [query] asks it for [n_results] candidates, not for three times
    as many, and returns what the index returns, rows without any keyword
    included, as the call without a keyword filter does.  And when the
    index returns no candidate for a keyword filter that is not empty, the
    loop is skipped and what the index returned comes back as it is. *)
Theorem query_empty_filter (collection_query : text -> Z -> results)
    (q : text) (n : Z) :
  query collection_query q n (Some []) = collection_query q n /\
  query collection_query q n (Some []) = query collection_query q n None /\
  (forall (k : ascii) (kw : text),
     documents (collection_query q (n * 3)) = [] ->
     query collection_query q n (Some (k :: kw)) = collection_query q (n * 3)) /\
  documents (query Spec.ten_index q 5 (Some []))
  = [str "annual report"; str "the BUDGET plan"; str "minutes";
     str "travel policy"; str "budget cuts"].
Proof.
  split; [apply query_empty_keyword |]. split; [| split].
  - by rewrite query_empty_keyword, query_unset.
  - intros k kw Hd. unfold query. simpl truthy. cbv iota. by rewrite Hd.
  - rewrite query_empty_keyword. by vm_compute.
Qed.

Lemma query_empty_filter_witness :
  query Spec.ten_index (str "money") 5 (Some [])
  = Spec.ten_index (str "money") 5 /\
  length (documents (Spec.ten_index (str "money") 5)) = 5%nat /\
  documents (Spec.empty_index (str "money") (5 * 3)) = [] /\
  query Spec.empty_index (str "money") 5 (Some (str "Budget"))
  = Spec.empty_index (str "money") (5 * 3).
Proof.
  split; [apply (query_empty_filter Spec.ten_index (str "money") 5) |].
  split; [reflexivity |]. split; [reflexivity |].
  apply (proj1 (proj2 (proj2
           (query_empty_filter Spec.empty_index (str "money") 5)))
           "B"%char (str "udget")).
  reflexivity.
Defined.

End VectorizeFacts.

(** ** The similarity score and the threshold filter of the callers *)

Module CallerFacts.
Import Text Vectorize Callers VectorizeFacts.

Lemma py_max_Qmax a b : py_max a b = Qmax a b.
Proof. reflexivity. Qed.

Lemma slice_map {A B} (f : A -> B) (l : list A) a b :
  slice (map f l) a b = map f (slice l a b).
Proof.
  unfold slice, len. rewrite length_map.
  change (@take B) with (@firstn B). change (@drop B) with (@skipn B).
  change (@take A) with (@firstn A). change (@drop A) with (@skipn A).
  by rewrite skipn_map, firstn_map.
Qed.

Lemma slice_nil {A} a b : slice (@nil A) a b = [].
Proof. unfold slice. by rewrite drop_nil, take_nil. Qed.

Lemma threshold_loop_rows m l acc :
  foldl (fun filtered_results '(doc, meta, distance) =>
           let similarity := py_max 0 (100 * (1 - distance / 2))%Q in
           if Qle_bool m similarity
           then filtered_results ++ [(doc, meta, similarity)]
           else filtered_results) acc l
  = acc ++ map Spec.with_similarity (List.filter (Spec.keeps m) l).
Proof.
  revert acc. induction l as [| [[doc meta] dist] l IH]; intros acc; simpl.
  - by rewrite app_nil_r.
  - rewrite IH.
    change (Spec.keeps m (doc, meta, dist))
      with (Qle_bool m (py_max 0 (100 * (1 - dist / 2))%Q)).
    destruct (Qle_bool m _); [| done]. simpl. by rewrite <- app_assoc.
Qed.

Lemma threshold_loop3_rows m l chunks metas sims :
  foldl (fun '(chunks, metas, sims) '(doc, meta, distance) =>
           let similarity := py_max 0 (100 * (1 - distance / 2))%Q in
           if Qle_bool m similarity
           then (chunks ++ [doc], metas ++ [meta], sims ++ [similarity])
           else (chunks, metas, sims)) (chunks, metas, sims) l
  = let kept := map Spec.with_similarity (List.filter (Spec.keeps m) l) in
    (chunks ++ map (fun r => r.1.1) kept, metas ++ map (fun r => r.1.2) kept,
     sims ++ map snd kept).
Proof.
  revert chunks metas sims.
  induction l as [| [[doc meta] dist] l IH]; intros chunks metas sims; simpl.
  - by rewrite !app_nil_r.
  - change (Spec.keeps m (doc, meta, dist))
      with (Qle_bool m (py_max 0 (100 * (1 - dist / 2))%Q)).
    destruct (Qle_bool m _); rewrite IH; simpl; [| done].
    by rewrite <- !app_assoc.
Qed.

Lemma threshold_loop2_rows m l chunks metas :
  foldl (fun '(filtered_chunks, filtered_metas) '(doc, meta, distance) =>
           let similarity := py_max 0 (100 * (1 - distance / 2))%Q in
           if Qle_bool m similarity
           then (filtered_chunks ++ [doc], filtered_metas ++ [meta])
           else (filtered_chunks, filtered_metas)) (chunks, metas) l
  = (chunks ++ map (fun r => r.1.1) (List.filter (Spec.keeps m) l),
     metas ++ map (fun r => r.1.2) (List.filter (Spec.keeps m) l)).
Proof.
  revert chunks metas.
  induction l as [| [[doc meta] dist] l IH]; intros chunks metas; simpl.
  - by rewrite !app_nil_r.
  - change (Spec.keeps m (doc, meta, dist))
      with (Qle_bool m (py_max 0 (100 * (1 - dist / 2))%Q)).
    destruct (Qle_bool m _); rewrite IH; simpl; [| done].
    by rewrite <- !app_assoc.
Qed.

(** The chunks that [main] keeps for the answer. *)
Lemma main_filter_rows r m :
  main_filter r m
  = (map (fun r => r.1.1) (List.filter (Spec.keeps m) (rows r)),
     map (fun r => r.1.2) (List.filter (Spec.keeps m) (rows r))).
Proof.
  unfold main_filter. destruct (documents r) eqn:Hd.
  - unfold rows. by rewrite Hd.
  - by rewrite threshold_loop2_rows.
Qed.

(** The table of the CLI: the rows that reach the threshold, in the order
    of the result, each with its similarity. *)
Lemma display_results_rows r m :
  display_results r m
  = map Spec.with_similarity (List.filter (Spec.keeps m) (rows r)).
Proof.
  unfold display_results. destruct (documents r) eqn:Hd.
  - unfold rows. by rewrite Hd.
  - by rewrite threshold_loop_rows.
Qed.

Lemma inspect_results_rows r :
  inspect_results r = map Spec.with_similarity (rows r).
Proof.
  unfold inspect_results. destruct (documents r) eqn:Hd.
  - unfold rows. by rewrite Hd.
  - apply map_ext. by intros [[doc meta] dist].
Qed.

(** The sources of the web UI: the same rows, cut to [n_results]. *)
Lemma query_rag_rows (db_query : text -> Z -> option text -> results)
    (generate_answer : text -> list text -> list metadata -> text) q m n :
  (query_rag db_query generate_answer q m n).2
  = slice (map Spec.with_similarity
             (List.filter (Spec.keeps m) (rows (db_query q 10 None)))) 0 n.
Proof.
  unfold query_rag. destruct (documents (db_query q 10 None)) eqn:Hd.
  - unfold rows. rewrite Hd. simpl. by rewrite slice_nil.
  - rewrite threshold_loop3_rows. simpl.
    set (kept := map Spec.with_similarity _).
    destruct (map (fun r => r.1.1) kept) eqn:Hk.
    + destruct kept; [by rewrite slice_nil | discriminate Hk].
    + simpl. rewrite <- Hk. rewrite !slice_map. apply zip3_triples.
Qed.

Lemma Qhalf d : (d / 2 == d * (1 # 2))%Q.
Proof. reflexivity. Qed.

Lemma similarity_spec_antitone d1 d2 :
  (d1 <= d2 -> Spec.similarity_spec d2 <= Spec.similarity_spec d1)%Q.
Proof.
  intros H. unfold Spec.similarity_spec. apply Q.max_le_compat_l.
  rewrite !Qhalf. lra.
Qed.

Lemma sorted_filter_map {A B} (R1 : relation A) (R2 : relation B)
    (f : A -> B) (keep : A -> bool) (l : list A) :
  (forall a b, R1 a b -> R2 (f a) (f b)) ->
  StronglySorted R1 l -> StronglySorted R2 (map f (List.filter keep l)).
Proof.
  intros Hf. induction 1 as [| a l Hl IH Ha]; simpl; [constructor |].
  destruct (keep a); [| done]. simpl. constructor; [done |].
  apply List.Forall_forall. intros y (x & <- & Hx)%List.in_map_iff.
  apply List.filter_In in Hx as [Hx _]. apply Hf.
  by apply (proj1 (List.Forall_forall _ _) Ha).
Qed.

(** C1.  Every caller shows, for a row at distance [d], the similarity
    [max(0, 100 * (1 - d / 2))]: the table of the CLI, the sources of the
    web UI and the listing of the inspection script.  The similarity is 100
    at distance 0, 50 at distance 1, 0 at distance 2, 0 beyond 2, and never
    negative. *)
Theorem similarity_formula :
  (forall r m,
     map snd (display_results r m)
     = map (fun row => Spec.similarity_spec row.2)
           (List.filter (Spec.keeps m) (rows r))) /\
  (forall db_query generate_answer q m n,
     map snd (query_rag db_query generate_answer q m n).2
     = map (fun row => Spec.similarity_spec row.2)
           (slice (List.filter (Spec.keeps m) (rows (db_query q 10 None))) 0 n)) /\
  (forall r,
     map snd (inspect_results r)
     = map (fun row => Spec.similarity_spec row.2) (rows r)) /\
  (Spec.similarity_spec 0 == 100)%Q /\
  (Spec.similarity_spec 1 == 50)%Q /\
  (Spec.similarity_spec 2 == 0)%Q /\
  (forall d, 2 < d -> Spec.similarity_spec d == 0)%Q /\
  (forall d, 0 <= Spec.similarity_spec d)%Q.
Proof.
  repeat split; try (by vm_compute).
  - intros r m. rewrite display_results_rows. by rewrite List.map_map.
  - intros dbq ga q m n. rewrite query_rag_rows, <- !slice_map.
    by rewrite List.map_map.
  - intros r. rewrite inspect_results_rows. by rewrite List.map_map.
  - intros d Hd. unfold Spec.similarity_spec. apply Q.max_l.
    rewrite Qhalf. lra.
  - intros d. unfold Spec.similarity_spec. apply Q.le_max_l.
Qed.

Lemma similarity_formula_witness :
  (2 < 5 / 2)%Q /\ (Spec.similarity_spec (5 / 2) == 0)%Q.
Proof.
  split; [by vm_compute |].
  apply (proj1 (proj2 (proj2 (proj2 (proj2 (proj2 (proj2 similarity_formula)))))) (5 / 2)%Q).
  by vm_compute.
Defined.

(** C5.  The threshold filter of each caller (the table and the answer
    loop of the CLI, the web UI) keeps exactly the rows whose similarity is
    at least [min_similarity].  The rows of a result set come by ascending
    distance, and the kept rows come out in that order: by ascending
    distance, that is by descending similarity (the web UI then cuts them
    to the first [n_results]).  For the five rows with the distances 0.2,
    0.8, 1.5, 1.9, 0.05, whose similarities are 90, 60, 25, 5, 97.5, and
    the threshold 60, the rows 0, 1 and 4 are kept; the result set lists
    the rows by rank, row 4 first, and they are returned in the order
    row 4, row 0, row 1. *)
Theorem threshold_filter (r : results) (m : Q) :
  display_results r m
  = map Spec.with_similarity (List.filter (Spec.keeps m) (rows r)) /\
  (forall row, Spec.keeps m row = true <-> (m <= Spec.similarity_spec row.2)%Q) /\
  (Spec.ascending (rows r) ->
   Spec.ascending (List.filter (Spec.keeps m) (rows r)) /\
   Spec.descending (display_results r m)) /\
  (forall db_query generate_answer q n,
     (query_rag db_query generate_answer q m n).2
     = slice (map Spec.with_similarity
                (List.filter (Spec.keeps m) (rows (db_query q 10 None)))) 0 n) /\
  main_filter r m
  = (map (fun r => r.1.1) (List.filter (Spec.keeps m) (rows r)),
     map (fun r => r.1.2) (List.filter (Spec.keeps m) (rows r))) /\
  Forall2 Qeq (map Spec.similarity_spec (distances Spec.five_rows))
          [100 - 10; 60; 25; 5; 975 / 10]%Q /\
  map (fun r => r.1.1) (List.filter (Spec.keeps 60) (rows Spec.five_rows))
  = [str "row 0"; str "row 1"; str "row 4"] /\
  rows Spec.five_by_rank ≡ₚ rows Spec.five_rows /\
  Spec.ascending (rows Spec.five_by_rank) /\
  map (fun r => r.1.1) (display_results Spec.five_by_rank 60)
  = [str "row 4"; str "row 0"; str "row 1"].
Proof.
  split; [apply display_results_rows |].
  split; [| split; [| split; [| split; [| split; [| split; [| split;
    [| split]]]]]]].
  - intros row. apply Qle_bool_iff.
  - intros Hs. split.
    + rewrite <- (List.map_id (List.filter _ _)).
      by apply (sorted_filter_map (fun a b => (a.2 <= b.2)%Q)
                  (fun a b => (a.2 <= b.2)%Q) id (Spec.keeps m)).
    + rewrite display_results_rows.
      apply (sorted_filter_map (fun a b => (a.2 <= b.2)%Q)
               (fun a b => (b.2 <= a.2)%Q) Spec.with_similarity (Spec.keeps m));
        [| exact Hs].
      intros a b Hab. by apply similarity_spec_antitone.
  - intros dbq ga q n. apply query_rag_rows.
  - apply main_filter_rows.
  - repeat constructor; by vm_compute.
  - by vm_compute.
  - change (rows Spec.five_rows) with
      (take 4 (rows Spec.five_rows) ++ drop 4 (rows Spec.five_rows)).
    change (rows Spec.five_by_rank) with
      (drop 4 (rows Spec.five_rows) ++ take 4 (rows Spec.five_rows)).
    apply Permutation_app_comm.
  - repeat constructor; simpl; intros H; discriminate H.
  - by vm_compute.
Qed.

Lemma threshold_filter_witness :
  Spec.ascending (rows Spec.five_by_rank) /\
  Spec.ascending (List.filter (Spec.keeps 60) (rows Spec.five_by_rank)) /\
  Spec.descending (display_results Spec.five_by_rank 60).
Proof.
  assert (Spec.ascending (rows Spec.five_by_rank)) as Hs.
  { repeat constructor; simpl; intros H; discriminate H. }
  split; [exact Hs |].
  exact (proj1 (proj2 (proj2 (threshold_filter Spec.five_by_rank 60))) Hs).
Defined.

End CallerFacts.

(** ** Ingestion *)

Module IngestFacts.
Import Text Cleaner Vectorize TextFacts.

Lemma str_of_nat_inj i j : str_of_nat i = str_of_nat j -> i = j.
Proof.
  unfold str_of_nat, str. intros H.
  apply (f_equal string_of_list_ascii) in H.
  rewrite !string_of_list_ascii_of_string in H.
  apply (f_equal NilEmpty.uint_of_string) in H.
  rewrite !NilEmpty.usu in H. injection H as H.
  by apply DecimalNat.Unsigned.to_uint_inj.
Qed.

(** Two chunks of one file have different ids. *)
Lemma chunk_id_inj fname i j : chunk_id fname i = chunk_id fname j -> i = j.
Proof.
  unfold chunk_id. intros H. apply app_inv_head in H. apply app_inv_head in H.
  by apply str_of_nat_inj.
Qed.

Lemma collection_add_upsert docs metas ids c :
  collection_add docs metas ids c = Spec.upsert_all (zip ids (zip docs metas)) c.
Proof. reflexivity. Qed.

Lemma upsert_all_union recs c :
  Spec.upsert_all recs c = list_to_map (reverse recs) ∪ c.
Proof.
  unfold Spec.upsert_all. revert c.
  induction recs as [| [id r] recs IH]; intros c; simpl.
  - by rewrite (left_id_L ∅ (∪)).
  - rewrite IH, reverse_cons, list_to_map_app. simpl.
    rewrite <- (assoc_L (∪)). f_equal.
    by rewrite insert_union_singleton_l.
Qed.

(** Writing the same records again changes nothing. *)
Lemma upsert_all_idemp recs c :
  Spec.upsert_all recs (Spec.upsert_all recs c) = Spec.upsert_all recs c.
Proof.
  rewrite !upsert_all_union. rewrite (assoc_L (∪)). f_equal.
  apply (idemp_L (∪)).
Qed.

(** The record read under an id is the last one written under it. *)
Lemma upsert_all_lookup (recs : list (text * record)) (c : gmap text record)
    (i : nat) (k : text) (v : record) :
  recs !! i = Some (k, v) ->
  (forall (j : nat) v', (i < j)%nat -> recs !! j <> Some (k, v')) ->
  Spec.upsert_all recs c !! k = Some v.
Proof.
  unfold Spec.upsert_all.
  induction recs as [| [k' v'] recs IH] using rev_ind; [done |].
  intros Hi Hlater. rewrite foldl_snoc.
  destruct (decide (i < length recs)%nat) as [Hlt | Hge].
  - rewrite lookup_app_l in Hi by done.
    assert (k' <> k) as Hne.
    { intros ->. apply (Hlater (length recs) v' Hlt).
      by rewrite lookup_app_r, Nat.sub_diag by lia. }
    rewrite lookup_insert_ne by done. apply IH; [done |].
    intros j w Hj Hjw. apply (Hlater j w Hj).
    apply lookup_lt_Some in Hjw as Hjl. by rewrite lookup_app_l.
  - apply lookup_lt_Some in Hi as Hil. rewrite length_app in Hil. simpl in Hil.
    assert (i = length recs) as -> by lia.
    rewrite lookup_app_r, Nat.sub_diag in Hi by lia. injection Hi as -> ->.
    apply lookup_insert_eq.
Qed.

Lemma zip_slice_nat {A B} (l : list A) (k : list B) (a b : nat) :
  zip (take b (drop a l)) (take b (drop a k)) = take b (drop a (zip l k)).
Proof. by rewrite zip_with_drop, zip_with_take. Qed.

(** One batch writes the next hundred records. *)
Lemma batch_upsert (p : pending) (c : gmap text record) (j : nat) :
  length (all_metadatas p) = length (all_chunks p) ->
  length (all_ids p) = length (all_chunks p) ->
  collection_add
    (slice (all_chunks p) (100 * Z.of_nat j)
       (Z.min (100 * Z.of_nat j + batch_size) (len (all_chunks p))))
    (slice (all_metadatas p) (100 * Z.of_nat j)
       (Z.min (100 * Z.of_nat j + batch_size) (len (all_chunks p))))
    (slice (all_ids p) (100 * Z.of_nat j)
       (Z.min (100 * Z.of_nat j + batch_size) (len (all_chunks p)))) c
  = Spec.upsert_all
      (take 100 (drop (100 * j)
         (zip (all_ids p) (zip (all_chunks p) (all_metadatas p))))) c.
Proof.
  intros Hm Hi. rewrite collection_add_upsert. f_equal.
  unfold batch_size, len.
  set (n := length (all_chunks p)).
  replace (100 * Z.of_nat j) with (Z.of_nat (100 * j)) by lia.
  replace (Z.min (Z.of_nat (100 * j) + 100) (Z.of_nat n))
    with (Z.of_nat (Nat.min (100 * j + 100) n)) by lia.
  rewrite !slice_nat by done. rewrite !zip_slice_nat.
  set (recs := zip (all_ids p) (zip (all_chunks p) (all_metadatas p))).
  assert (length recs = n) as Hn.
  { unfold recs. rewrite !length_zip_with. lia. }
  destruct (Nat.le_gt_cases (100 * j + 100) n) as [Hle | Hgt].
  - f_equal. lia.
  - rewrite !take_ge; [done | |]; rewrite length_drop; lia.
Qed.

Lemma batches_upsert (p : pending) (c : gmap text record) (j m : nat) :
  length (all_metadatas p) = length (all_chunks p) ->
  length (all_ids p) = length (all_chunks p) ->
  foldl (fun c i =>
           let batch_end := Z.min (i + batch_size) (len (all_chunks p)) in
           collection_add (slice (all_chunks p) i batch_end)
                          (slice (all_metadatas p) i batch_end)
                          (slice (all_ids p) i batch_end) c)
        c (map (fun k => 100 * Z.of_nat k) (seq j m))
  = Spec.upsert_all
      (take (100 * m) (drop (100 * j)
         (zip (all_ids p) (zip (all_chunks p) (all_metadatas p))))) c.
Proof.
  intros Hm Hi. revert j c. induction m as [| m IH]; intros j c.
  - by rewrite Nat.mul_0_r, take_0.
  - cbn [seq map foldl]. rewrite batch_upsert by done. rewrite IH.
    replace (100 * S m)%nat with (100 + 100 * m)%nat by lia.
    rewrite <- take_take_drop, drop_drop.
    unfold Spec.upsert_all at 3. rewrite foldl_app.
    by replace (100 * j + 100)%nat with (100 * S j)%nat by lia.
Qed.

(** The batches together write every record, in the order of the lists. *)
Lemma add_batches_upsert (p : pending) (c : gmap text record) :
  length (all_metadatas p) = length (all_chunks p) ->
  length (all_ids p) = length (all_chunks p) ->
  add_batches p c
  = Spec.upsert_all (zip (all_ids p) (zip (all_chunks p) (all_metadatas p))) c.
Proof.
  intros Hm Hi. unfold add_batches, range_step.
  rewrite batches_upsert by done. rewrite drop_0, take_ge; [done |].
  rewrite !length_zip_with, Hm, Hi. unfold len, batch_size.
  set (n := length (all_chunks p)).
  pose proof (Z.mul_succ_div_gt (Z.of_nat n + 100 - 1) 100 ltac:(lia)).
  pose proof (Z.div_pos (Z.of_nat n + 100 - 1) 100 ltac:(lia) ltac:(lia)).
  lia.
Qed.

Lemma gather_document_lengths doc chunks acc :
  length (all_metadatas acc) = length (all_chunks acc) ->
  length (all_ids acc) = length (all_chunks acc) ->
  length (all_metadatas (gather_document doc chunks acc))
  = length (all_chunks (gather_document doc chunks acc)) /\
  length (all_ids (gather_document doc chunks acc))
  = length (all_chunks (gather_document doc chunks acc)).
Proof.
  intros Hm Hi. simpl. rewrite !length_app, !length_imap. lia.
Qed.

Lemma gather_lengths fuel docs acc p :
  length (all_metadatas acc) = length (all_chunks acc) ->
  length (all_ids acc) = length (all_chunks acc) ->
  gather fuel docs acc = Some p ->
  length (all_metadatas p) = length (all_chunks p) /\
  length (all_ids p) = length (all_chunks p).
Proof.
  revert acc. induction docs as [| doc docs IH]; intros acc Hm Hi; simpl.
  - by intros [= <-].
  - destruct (chunk_text fuel (doc_content doc) CHUNK_SIZE CHUNK_OVERLAP)
      as [chunks |]; [| done].
    destruct (gather_document_lengths doc chunks acc Hm Hi). by apply IH.
Qed.

(** The ids that one document adds: [<filename>_chunk_<i>] for each index. *)
Lemma gather_document_ids doc chunks acc :
  all_ids (gather_document doc chunks acc)
  = all_ids acc
    ++ map (chunk_id (get doc "filename" (str "unknown")))
           (seq 0 (length chunks)).
Proof. simpl. f_equal. apply (imap_seq_0 chunks). Qed.

Lemma add_documents_single (fuel : nat) (doc : gmap string text)
    (chunks : list text) (c : gmap text record) :
  chunk_text fuel (doc_content doc) CHUNK_SIZE CHUNK_OVERLAP = Some chunks ->
  add_documents fuel [doc] c
  = Some (Spec.upsert_all
            (zip (all_ids (gather_document doc chunks (Pending [] [] [])))
               (zip chunks
                  (all_metadatas (gather_document doc chunks (Pending [] [] [])))))
            c).
Proof.
  intros Hc. unfold add_documents. simpl. rewrite Hc. f_equal.
  rewrite add_batches_upsert; [done | |]; simpl; by rewrite length_imap.
Qed.

(** Ingesting the same documents again leaves the collection as it is. *)
Lemma add_documents_again (fuel : nat) (docs : list (gmap string text))
    (c1 c2 : gmap text record) :
  add_documents fuel docs c1 = Some c2 -> add_documents fuel docs c2 = Some c2.
Proof.
  unfold add_documents.
  destruct (gather fuel docs (Pending [] [] [])) as [p |] eqn:Hg; [| done].
  destruct (gather_lengths fuel docs (Pending [] [] []) p eq_refl eq_refl Hg)
    as [Hm Hi].
  intros [= <-]. f_equal. rewrite !add_batches_upsert by done.
  apply upsert_all_idemp.
Qed.

(** X23.  When [chunk_text] returns the chunks of a document, ingestion
    of the document returns too and stores chunk [i] under the id
    [<filename>_chunk_<i>]: a document named "report.pdf" with three chunks
    gives the ids report.pdf_chunk_0, report.pdf_chunk_1 and
    report.pdf_chunk_2.  The ids depend on the file name and on the index
    only, so ingesting the same content again writes the same records under
    the same ids: with the upsert of the index, the record under each id is
    the chunk last written there, whatever was stored before, and the
    collection after the second ingestion is the collection after the
    first. *)
Theorem add_documents_ids (fuel : nat) (doc : gmap string text)
    (chunks : list text) (c : gmap text record) :
  chunk_text fuel (doc_content doc) CHUNK_SIZE CHUNK_OVERLAP = Some chunks ->
  all_ids (gather_document doc chunks (Pending [] [] []))
  = map (chunk_id (get doc "filename" (str "unknown")))
        (seq 0 (length chunks)) /\
  (get doc "filename" (str "unknown") = str "report.pdf" ->
   length chunks = 3%nat ->
   all_ids (gather_document doc chunks (Pending [] [] []))
   = [str "report.pdf_chunk_0"; str "report.pdf_chunk_1";
      str "report.pdf_chunk_2"]) /\
  (exists c',
     add_documents fuel [doc] c = Some c' /\
     (forall (i : nat) (chunk : text),
        chunks !! i = Some chunk ->
        c' !! chunk_id (get doc "filename" (str "unknown")) i
        = Some (chunk,
                {| filename := get doc "filename" (str "unknown");
                   filepath := get doc "filepath" [];
                   chunk_index := Z.of_nat i;
                   total_chunks := len chunks |})) /\
     add_documents fuel [doc] c' = Some c') /\
  (forall (docs : list (gmap string text)) (c1 c2 : gmap text record),
     add_documents fuel docs c1 = Some c2 ->
     add_documents fuel docs c2 = Some c2).
Proof.
  intros Hc. split; [apply gather_document_ids |]. split; [| split].
  - intros Hf Hl. rewrite gather_document_ids, Hf, Hl. reflexivity.
  - eexists. split; [by apply add_documents_single |]. split.
    + intros i chunk Hi. simpl.
      apply (upsert_all_lookup _ _ i).
      * rewrite !lookup_zip_with, !list_lookup_imap, Hi. reflexivity.
      * intros j v' Hj. rewrite !lookup_zip_with, !list_lookup_imap.
        destruct (chunks !! j); simpl; [| done].
        intros [= Hid _]. apply chunk_id_inj in Hid. lia.
    + eapply add_documents_again. by apply add_documents_single.
  - intros docs c1 c2. apply add_documents_again.
Qed.

Lemma add_documents_ids_witness :
  chunk_text 3 (doc_content Spec.report_doc) CHUNK_SIZE CHUNK_OVERLAP
  = Some [Spec.times "a" 1000; Spec.times "a" 1000; Spec.times "a" 800] /\
  all_ids (gather_document Spec.report_doc
             [Spec.times "a" 1000; Spec.times "a" 1000; Spec.times "a" 800]
             (Pending [] [] []))
  = [str "report.pdf_chunk_0"; str "report.pdf_chunk_1";
     str "report.pdf_chunk_2"].
Proof.
  assert (chunk_text 3 (doc_content Spec.report_doc) CHUNK_SIZE CHUNK_OVERLAP
          = Some [Spec.times "a" 1000; Spec.times "a" 1000; Spec.times "a" 800])
    as Hc by (by vm_compute).
  split; [exact Hc |].
  apply (proj1 (proj2 (add_documents_ids 3 Spec.report_doc _ ∅ Hc)));
    reflexivity.
Defined.

(** A document on which [chunk_text] never returns keeps the whole call
    from returning: the writes come after the loop over the documents. *)
Lemma gather_stuck (fuel : nat) (doc : gmap string text)
    (before after : list (gmap string text)) (acc : pending) :
  chunk_text fuel (doc_content doc) CHUNK_SIZE CHUNK_OVERLAP = None ->
  gather fuel (before ++ doc :: after) acc = None.
Proof.
  intros Hdoc. revert acc.
  induction before as [| d before IH]; intros acc; simpl.
  - by rewrite Hdoc.
  - destruct (chunk_text fuel (doc_content d) CHUNK_SIZE CHUNK_OVERLAP);
      [apply IH | done].
Qed.

(** C2.  Ingestion does not store the chunks of every document.  On a
    document of 900 characters, a space and 2000 characters without a
    space, at the configured [CHUNK_SIZE = 1000] and [CHUNK_OVERLAP = 200],
    [chunk_text] never returns (its loop comes back to the [start] it began
    with), so [add_documents] never reaches its calls to [collection.add]:
    whatever the fuel, nothing is stored under any id, for that document
    and for every document ingested in the same call. *)
Theorem add_documents_stalls :
  doc_content Spec.stuck_doc = Spec.stuck_text_default /\
  len Spec.stuck_text_default = 2901 /\
  (forall fuel : nat,
     chunk_text fuel (doc_content Spec.stuck_doc) CHUNK_SIZE CHUNK_OVERLAP
     = None) /\
  (forall (fuel : nat) (before after : list (gmap string text))
          (c : gmap text record),
     add_documents fuel (before ++ Spec.stuck_doc :: after) c = None).
Proof.
  assert (forall fuel : nat,
            chunk_text fuel (doc_content Spec.stuck_doc)
                       CHUNK_SIZE CHUNK_OVERLAP = None) as Hstuck.
  { intros fuel. apply ChunkerFacts.chunk_text_stuck; by vm_compute. }
  split; [by vm_compute |]. split; [by vm_compute |].
  split; [exact Hstuck |].
  intros fuel before after c. unfold add_documents.
  by rewrite (gather_stuck fuel Spec.stuck_doc before after _ (Hstuck fuel)).
Qed.

End IngestFacts.

(** ** More on strings: prefixes, occurrences, stripping twice *)

Module StringFacts.
Import Text TextFacts.

Lemma starts_with_iff (sub t : text) :
  starts_with sub t = true <-> exists r, t = sub ++ r.
Proof.
  revert t. induction sub as [| a sub IH]; intros t; simpl.
  - split; [by exists t | done].
  - destruct t as [| b t].
    + split; [done | by intros [r Hr]].
    + destruct (Ascii.eqb_spec a b) as [-> | Hne].
      * rewrite IH. split; intros [r Hr]; exists r; [by rewrite Hr |].
        by injection Hr.
      * split; [done |]. intros [r Hr]. injection Hr as Hab _. by subst.
Qed.

(** [sub in t] holds exactly when [sub] occurs somewhere in [t]. *)
Lemma contains_iff (sub t : text) :
  contains sub t = true <-> exists l r, t = l ++ sub ++ r.
Proof.
  induction t as [| c t IH].
  - simpl. rewrite orb_false_r, starts_with_iff. split.
    + intros [r Hr]. by exists [], r.
    + intros (l & r & Hlr). destruct l; [by exists r |]. discriminate Hlr.
  - simpl. rewrite orb_true_iff, starts_with_iff, IH. split.
    + intros [[r Hr] | (l & r & Hlr)].
      * by exists [], r.
      * exists (c :: l), r. by rewrite Hlr.
    + intros (l & r & Hlr). destruct l as [| x l].
      * left. by exists r.
      * right. injection Hlr as _ Hlr. by exists l, r.
Qed.

Lemma contains_infix (sub l r : text) : contains sub (l ++ sub ++ r) = true.
Proof. apply contains_iff. by exists l, r. Qed.

(** What occurs in a piece of a text occurs in the text. *)
Lemma contains_piece (sub t : text) (a b : nat) :
  contains sub (take b (drop a t)) = true -> contains sub t = true.
Proof.
  rewrite !contains_iff. intros (l & r & Hlr).
  exists (take a t ++ l), (r ++ drop b (drop a t)).
  rewrite <- (take_drop a t) at 1. rewrite <- (take_drop b (drop a t)) at 1.
  rewrite Hlr. by rewrite <- !app_assoc.
Qed.

Lemma contains_strip (sub t : text) :
  contains sub (strip t) = true -> contains sub t = true.
Proof.
  destruct (strip_piece t) as (a & b & -> & _). apply contains_piece.
Qed.

Lemma starts_space_lstrip t : Spec.starts_space (lstrip t) = false.
Proof.
  induction t as [| c t IH]; simpl; [done |].
  destruct (is_space c) eqn:Hc; [done | by simpl].
Qed.

Lemma starts_space_rstrip t :
  Spec.starts_space t = false -> Spec.starts_space (rstrip t) = false.
Proof.
  intros Hs. destruct (rstrip_take t) as (b & -> & _).
  destruct t as [| c t]; [by rewrite take_nil |]. by destruct b.
Qed.

Lemma ends_space_rstrip t : Spec.ends_space (rstrip t) = false.
Proof.
  unfold Spec.ends_space, rstrip. rewrite rev_involutive.
  apply starts_space_lstrip.
Qed.

(** A stripped text has no whitespace at either end, and stripping it
    again changes nothing. *)
Lemma strip_no_edge_space t :
  Spec.starts_space (strip t) = false /\ Spec.ends_space (strip t) = false.
Proof.
  unfold strip. split; [| apply ends_space_rstrip].
  apply starts_space_rstrip, starts_space_lstrip.
Qed.

Lemma strip_idemp t : strip (strip t) = strip t.
Proof. apply strip_id_iff, strip_no_edge_space. Qed.

End StringFacts.

(** ** More on the chunker: when the loop ends, and what its chunks are *)

Module ChunkerMore.
Import Text Cleaner TextFacts StringFacts ChunkerFacts.

Lemma chunk_loop_forward fuel t cs ov st :
  1 <= cs -> ov <= 0 -> 0 <= fst st ->
  len t - fst st <= Z.of_nat fuel ->
  exists chunks,
    chunk_loop fuel t cs ov st = Some chunks /\
    (length chunks <= length (snd st) + Z.to_nat (len t - fst st))%nat.
Proof.
  intros Hcs Hov. revert st. induction fuel as [| fuel IH]; intros [start acc];
    simpl; intros Hs Hfuel; destruct (Z.ltb_spec start (len t)) as [Hlt | Hge];
    try lia; try (exists acc; split; [done | lia]).
  pose proof (window_end_bounds t cs start Hs Hcs) as Hw.
  assert (start < next_start ov (window_end t cs start)) as Hnext.
  { unfold next_start.
    destruct (Z.leb_spec (window_end t cs start - ov) 0); lia. }
  destruct (IH (next_start ov (window_end t cs start),
                acc ++ [strip (slice t start (window_end t cs start))]))
    as (chunks & Hc & Hn); simpl; [lia | lia |].
  exists chunks. split; [done |].
  simpl in Hn. rewrite length_app in Hn. simpl in Hn. lia.
Qed.

(** X1.  With [chunk_size >= 1] and [overlap <= 0], so also with no
    overlap at all, [chunk_text] returns for every text, within
    [len(text)] passes through the loop, and with at most [max(1,
    len(text))] chunks: every pass moves [start] forward. *)
Theorem chunk_text_forward_returns (t : text) (cs ov : Z) :
  1 <= cs -> ov <= 0 ->
  exists chunks,
    (forall fuel, (length t <= fuel)%nat ->
                  chunk_text fuel t cs ov = Some chunks) /\
    len chunks <= Z.max 1 (len t).
Proof.
  intros Hcs Hov. unfold chunk_text.
  destruct (Z.leb_spec (len t) cs).
  - exists [t]. split; [done |]. unfold len. simpl. lia.
  - destruct (chunk_loop_forward (length t) t cs ov (0, []))
      as (chunks & Hc & Hn); [done | done | simpl; lia | simpl; unfold len; lia |].
    exists chunks. split.
    + intros fuel Hfuel.
      replace fuel with (length t + (fuel - length t))%nat by lia.
      by apply chunk_loop_fuel_mono.
    + simpl in Hn. unfold len in *. lia.
Qed.

Lemma chunk_text_forward_returns_witness :
  1 <= 3 /\ 0 <= 0 /\
  exists chunks,
    (forall fuel, (length (str "ab cdefg") <= fuel)%nat ->
                  chunk_text fuel (str "ab cdefg") 3 0 = Some chunks) /\
    len chunks <= Z.max 1 (len (str "ab cdefg")).
Proof.
  split; [lia |]. split; [lia |].
  apply (chunk_text_forward_returns (str "ab cdefg") 3 0); lia.
Defined.

Lemma starts_with_elem (sub l : text) (x : ascii) :
  starts_with sub l = true -> x ∈ sub -> x ∈ l.
Proof.
  intros [r ->]%starts_with_iff Hx. apply elem_of_app. by left.
Qed.

Lemma rfind_scan_absent (sub t : text) (lo : Z) (k : nat) :
  (forall i : nat, starts_with sub (drop i t) = false) ->
  rfind_scan sub t lo k = -1.
Proof.
  intros Habs. induction k as [| k IH]; simpl; by rewrite Habs.
Qed.

(** A search for something that holds a space finds nothing in a text
    without spaces. *)
Lemma rfind_absent (sub t : text) (start stop : Z) :
  " "%char ∈ sub -> " "%char ∉ t -> rfind sub t start stop = -1.
Proof.
  intros Hsub Ht. unfold rfind. destruct (_ <? _); [done |].
  apply rfind_scan_absent. intros i.
  destruct (starts_with sub (drop i t)) eqn:Hs; [| done].
  exfalso. apply Ht. apply (starts_with_elem _ _ _ Hs) in Hsub.
  rewrite <- (take_drop i t). apply elem_of_app. by right.
Qed.

Lemma window_end_unbroken (t : text) (cs start : Z) :
  0 <= start -> " "%char ∉ t -> window_end t cs start = start + cs.
Proof.
  intros Hs Ht. unfold window_end. destruct (_ <? _); [| done].
  rewrite !rfind_absent; try done; try (by repeat constructor).
  change (Z.max (Z.max (-1) (-1)) (-1)) with (-1).
  assert ((-1 >? start) = false) as ->
    by (rewrite Z.gtb_ltb; apply Z.ltb_ge; lia).
  done.
Qed.

Lemma chunk_loop_unbroken fuel t cs ov start acc :
  0 <= ov < cs -> " "%char ∉ t -> 0 <= start ->
  len t - start <= Z.of_nat fuel * (cs - ov) ->
  exists chunks,
    chunk_loop fuel t cs ov (start, acc) = Some chunks /\
    (len chunks - len acc) * (cs - ov)
    <= Z.max 0 (len t - start + (cs - ov) - 1).
Proof.
  intros Hov Ht. revert start acc.
  induction fuel as [| fuel IH]; intros start acc Hs Hfuel; simpl;
    destruct (Z.ltb_spec start (len t)) as [Hlt | Hge];
    try (exists acc; split; [done | lia]).
  - lia.
  - rewrite window_end_unbroken by done.
    assert (next_start ov (start + cs) = start + (cs - ov)) as ->.
    { unfold next_start. destruct (Z.leb_spec (start + cs - ov) 0); lia. }
    destruct (IH (start + (cs - ov))
                (acc ++ [strip (slice t start (start + cs))]))
      as (chunks & Hc & Hn); [lia | lia |].
    exists chunks. split; [done |].
    unfold len in *. rewrite length_app in Hn. simpl in Hn.
    replace (Z.of_nat (length acc + 1)) with (Z.of_nat (length acc) + 1)
      in Hn by lia.
    lia.
Qed.

(** X2.  On a text without a space, with [0 <= overlap < chunk_size], no
    boundary is found, every window is [chunk_size] wide and [start] moves
    by [chunk_size - overlap]: [chunk_text] returns, within
    [len(text) / (chunk_size - overlap) + 1] passes, and the number of
    chunks is at most [ceil(len(text) / (chunk_size - overlap))], or 1. *)
Theorem chunk_text_unbroken_returns (t : text) (cs ov : Z) :
  0 <= ov < cs -> " "%char ∉ t ->
  exists chunks,
    (forall fuel,
       (Z.to_nat (len t / (cs - ov)) + 1 <= fuel)%nat ->
       chunk_text fuel t cs ov = Some chunks) /\
    len chunks <= Z.max 1 ((len t + (cs - ov) - 1) / (cs - ov)).
Proof.
  intros Hov Ht. unfold chunk_text. destruct (Z.leb_spec (len t) cs).
  - exists [t]. split; [done |]. unfold len at 1. simpl. lia.
  - pose proof (len_nonneg t) as Hlen.
    pose proof (Z.mul_succ_div_gt (len t) (cs - ov) ltac:(lia)) as Hdiv.
    pose proof (Z.div_pos (len t) (cs - ov) ltac:(lia) ltac:(lia)) as Hpos.
    destruct (chunk_loop_unbroken (Z.to_nat (len t / (cs - ov)) + 1)
                t cs ov 0 []) as (chunks & Hc & Hn); [done | done | lia | |].
    { rewrite Nat2Z.inj_add, Z2Nat.id by done. lia. }
    exists chunks. split.
    + intros fuel Hfuel.
      replace fuel with (Z.to_nat (len t / (cs - ov)) + 1
                         + (fuel - (Z.to_nat (len t / (cs - ov)) + 1)))%nat
        by lia.
      by apply chunk_loop_fuel_mono.
    + apply Z.max_le_iff. right.
      apply Z.div_le_lower_bound; [lia |].
      change (len (@nil text)) with 0 in Hn. lia.
Qed.

Lemma chunk_text_unbroken_returns_witness :
  0 <= 1 < 3 /\ (" "%char ∉ str "abcdefgh") /\
  exists chunks,
    (forall fuel,
       (Z.to_nat (len (str "abcdefgh") / (3 - 1)) + 1 <= fuel)%nat ->
       chunk_text fuel (str "abcdefgh") 3 1 = Some chunks) /\
    len chunks <= Z.max 1 ((len (str "abcdefgh") + (3 - 1) - 1) / (3 - 1)).
Proof.
  assert (" "%char ∉ str "abcdefgh") as Hns
    by (apply (bool_decide_unpack _); by vm_compute).
  split; [lia |]. split; [exact Hns |].
  apply (chunk_text_unbroken_returns (str "abcdefgh") 3 1); [lia | exact Hns].
Defined.

Lemma loop_body_stripped t cs ov st :
  Forall (fun c => strip c = c) (snd st) ->
  Forall (fun c => strip c = c) (snd (loop_body t cs ov st)).
Proof.
  destruct st as [start acc]. simpl. intros Hall.
  apply Forall_app. split; [done |]. constructor; [| constructor].
  apply strip_idemp.
Qed.

Lemma chunk_loop_stripped fuel t cs ov st chunks :
  Forall (fun c => strip c = c) (snd st) ->
  chunk_loop fuel t cs ov st = Some chunks ->
  Forall (fun c => strip c = c) chunks.
Proof.
  revert st. induction fuel as [| fuel IH]; intros st Hall; simpl;
    destruct (fst st <? len t); try done; try (by intros [= <-]).
  apply IH. by apply loop_body_stripped.
Qed.

(** X3.  When the text is longer than [chunk_size], every chunk that
    [chunk_text] returns, and every chunk appended after any number of
    passes, is stripped: it neither begins nor ends with whitespace. *)
Theorem chunk_text_chunks_stripped (t : text) (cs ov : Z) :
  cs < len t ->
  (forall fuel chunks,
     chunk_text fuel t cs ov = Some chunks ->
     Forall (fun c => strip c = c /\ Spec.starts_space c = false
                      /\ Spec.ends_space c = false) chunks) /\
  (forall n, Forall (fun c => strip c = c) (snd (loop_after n t cs ov))).
Proof.
  intros Hlen. split.
  - intros fuel chunks. unfold chunk_text.
    destruct (Z.leb_spec (len t) cs); [lia |]. intros Hc.
    apply (chunk_loop_stripped fuel t cs ov (0, []) chunks) in Hc;
      [| constructor].
    eapply Forall_impl; [exact Hc |]. intros c Hs. split; [done |].
    by apply strip_id_iff.
  - intros n. unfold loop_after. induction n as [| n IH]; simpl;
      [constructor | by apply loop_body_stripped].
Qed.

Lemma chunk_text_chunks_stripped_witness :
  3 < len (str "ab  cdefg") /\
  chunk_text 9 (str "ab  cdefg") 3 0
  = Some [str "ab"; []; str "cd"; str "efg"] /\
  Forall (fun c => strip c = c /\ Spec.starts_space c = false
                   /\ Spec.ends_space c = false)
         [str "ab"; []; str "cd"; str "efg"].
Proof.
  split; [by vm_compute |]. split; [by vm_compute |].
  apply (proj1 (chunk_text_chunks_stripped (str "ab  cdefg") 3 0
                  ltac:(by vm_compute)) 9%nat).
  by vm_compute.
Defined.

End ChunkerMore.

(** ** Cleaning the markdown *)

Module MarkdownFacts.
Import Text Cleaner Vectorize Markdown TextFacts StringFacts ChunkerMore.

Lemma starts_with_cons a (sub : text) b (t : text) :
  starts_with (a :: sub) (b :: t)
  = if Ascii.eqb a b then starts_with sub t else false.
Proof. reflexivity. Qed.

Lemma contains_cons (sub : text) c (t : text) :
  contains sub (c :: t) = starts_with sub (c :: t) || contains sub t.
Proof. reflexivity. Qed.

Lemma starts_with_one a (t : text) :
  starts_with [a; a] t = true -> starts_with [a] t = true.
Proof.
  intros [r ->]%starts_with_iff. apply starts_with_iff. by exists (a :: r).
Qed.

Lemma sub_spaces_cons c t :
  sub_spaces (c :: t)
  = if Ascii.eqb c space && starts_with [space] t then sub_spaces t
    else c :: sub_spaces t.
Proof. reflexivity. Qed.

Lemma sub_blank_lines_cons c t :
  sub_blank_lines (c :: t)
  = if Ascii.eqb c newline && starts_with [newline; newline] t
    then sub_blank_lines t
    else c :: sub_blank_lines t.
Proof. reflexivity. Qed.

Lemma sub_bullets_id t : sub_bullets t = t.
Proof. unfold sub_bullets. apply List.map_id. Qed.

Lemma sub_spaces_elem (x : ascii) t : x ∈ sub_spaces t -> x ∈ t.
Proof.
  induction t as [| c t IH]; [done |]. rewrite sub_spaces_cons.
  destruct (Ascii.eqb c space && starts_with [space] t).
  - intros H. apply elem_of_cons. right. by apply IH.
  - intros [-> | H]%elem_of_cons; apply elem_of_cons; [by left |].
    right. by apply IH.
Qed.

Lemma length_sub_spaces t : (length (sub_spaces t) <= length t)%nat.
Proof.
  induction t as [| c t IH]; [done |]. rewrite sub_spaces_cons.
  destruct (Ascii.eqb c space && starts_with [space] t); simpl; lia.
Qed.

(** Squeezing the runs of spaces keeps the first character. *)
Lemma head_sub_spaces t :
  starts_with [space] (sub_spaces t) = starts_with [space] t.
Proof.
  induction t as [| c t IH]; [done |]. rewrite sub_spaces_cons.
  destruct (Ascii.eqb c space && starts_with [space] t) eqn:Hdrop; [| done].
  apply andb_true_iff in Hdrop as [Hc Ht]. rewrite IH, Ht.
  apply Ascii.eqb_eq in Hc as ->. reflexivity.
Qed.

Lemma sub_spaces_no_run t : contains [space; space] (sub_spaces t) = false.
Proof.
  induction t as [| c t IH]; [done |]. rewrite sub_spaces_cons.
  destruct (Ascii.eqb c space && starts_with [space] t) eqn:Hdrop; [done |].
  rewrite contains_cons, IH, orb_false_r, starts_with_cons.
  destruct (Ascii.eqb_spec space c) as [<- | Hne]; [| done].
  rewrite head_sub_spaces. by rewrite Ascii.eqb_refl in Hdrop.
Qed.

(** X4.  What [remove_special_characters] returns holds no form feed, no
    vertical tab and no two spaces in a row, and is never longer than the
    text it was given. *)
Theorem remove_special_characters_clean (t : text) :
  (form_feed ∉ remove_special_characters t) /\
  (vertical_tab ∉ remove_special_characters t) /\
  contains (str "  ") (remove_special_characters t) = false /\
  len (remove_special_characters t) <= len t.
Proof.
  unfold remove_special_characters. rewrite sub_bullets_id.
  assert (forall x, x = form_feed \/ x = vertical_tab ->
                    x ∉ sub_spaces (sub_form_feeds t)) as Hnot.
  { intros x Hx Hin. apply sub_spaces_elem in Hin.
    apply list_elem_of_In, List.filter_In in Hin as [_ Hin].
    destruct Hx as [-> | ->]; by vm_compute in Hin. }
  split; [apply Hnot; by left |]. split; [apply Hnot; by right |].
  split; [apply sub_spaces_no_run |].
  pose proof (length_sub_spaces (sub_form_feeds t)).
  pose proof (List.filter_length_le
                (fun c => negb (Ascii.eqb c form_feed
                                || Ascii.eqb c vertical_tab)) t).
  unfold len, sub_form_feeds in *. lia.
Qed.

Lemma head1_sub_blank_lines t :
  starts_with [newline] (sub_blank_lines t) = starts_with [newline] t.
Proof.
  induction t as [| c t IH]; [done |]. rewrite sub_blank_lines_cons.
  destruct (Ascii.eqb c newline && starts_with [newline; newline] t)
    eqn:Hdrop; [| done].
  apply andb_true_iff in Hdrop as [Hc Ht]. rewrite IH.
  apply Ascii.eqb_eq in Hc as ->. rewrite (starts_with_one _ _ Ht).
  reflexivity.
Qed.

Lemma head2_sub_blank_lines t :
  starts_with [newline; newline] (sub_blank_lines t)
  = starts_with [newline; newline] t.
Proof.
  induction t as [| c t IH]; [done |]. rewrite sub_blank_lines_cons.
  destruct (Ascii.eqb c newline && starts_with [newline; newline] t)
    eqn:Hdrop.
  - apply andb_true_iff in Hdrop as [Hc Ht]. rewrite IH, Ht.
    apply Ascii.eqb_eq in Hc as ->. rewrite starts_with_cons.
    rewrite (starts_with_one _ _ Ht). reflexivity.
  - rewrite !starts_with_cons. destruct (Ascii.eqb newline c); [| done].
    apply head1_sub_blank_lines.
Qed.

Lemma sub_blank_lines_no_run t :
  contains [newline; newline; newline] (sub_blank_lines t) = false.
Proof.
  induction t as [| c t IH]; [done |]. rewrite sub_blank_lines_cons.
  destruct (Ascii.eqb c newline && starts_with [newline; newline] t)
    eqn:Hdrop; [done |].
  rewrite contains_cons, IH, orb_false_r, starts_with_cons.
  destruct (Ascii.eqb_spec newline c) as [<- | Hne]; [| done].
  rewrite head2_sub_blank_lines. by rewrite Ascii.eqb_refl in Hdrop.
Qed.

(** X5.  What [normalize_spacing] returns neither begins nor ends with
    whitespace, and holds no three newlines in a row: at most one blank
    line separates two paragraphs. *)
Theorem normalize_spacing_clean (t : text) :
  strip (normalize_spacing t) = normalize_spacing t /\
  Spec.starts_space (normalize_spacing t) = false /\
  Spec.ends_space (normalize_spacing t) = false /\
  contains [newline; newline; newline] (normalize_spacing t) = false.
Proof.
  unfold normalize_spacing. split; [apply strip_idemp |].
  split; [apply strip_no_edge_space |]. split; [apply strip_no_edge_space |].
  destruct (contains _ (strip _)) eqn:Hc; [| done].
  apply contains_strip in Hc. by rewrite sub_blank_lines_no_run in Hc.
Qed.

(** X6.  [clean_markdown] adds the cleaned text under ["cleaned_markdown"]
    and leaves every other key as it is, so the file name is kept; the text
    that [add_documents] then chunks is the cleaned text, and every chunk of
    it that [chunk_text] returns, in the one-chunk case too, neither begins
    nor ends with whitespace. *)
Theorem cleaned_document_chunks (fuel : nat) (d : gmap string text)
    (chunks : list text) :
  chunk_text fuel (doc_content (clean_markdown d)) CHUNK_SIZE CHUNK_OVERLAP
  = Some chunks ->
  doc_content (clean_markdown d)
  = normalize_spacing
      (fix_ocr_errors
         (remove_special_characters
            (get d "markdown" (get d "content" [])))) /\
  (forall k : string,
     k <> "cleaned_markdown"%string -> clean_markdown d !! k = d !! k) /\
  get (clean_markdown d) "filename" (str "unknown")
  = get d "filename" (str "unknown") /\
  Forall (fun c => strip c = c) chunks.
Proof.
  assert (doc_content (clean_markdown d)
          = normalize_spacing
              (fix_ocr_errors
                 (remove_special_characters
                    (get d "markdown" (get d "content" []))))) as Hcontent.
  { unfold doc_content, clean_markdown, get at 1.
    by rewrite lookup_insert_eq. }
  intros Hc. split; [exact Hcontent |]. split; [| split].
  - intros k Hk. unfold clean_markdown. by rewrite lookup_insert_ne.
  - unfold clean_markdown, get at 1 4. by rewrite lookup_insert_ne.
  - unfold chunk_text in Hc.
    destruct (Z.leb_spec (len (doc_content (clean_markdown d))) CHUNK_SIZE)
      as [Hle | Hgt].
    + injection Hc as <-. constructor; [| constructor].
      rewrite Hcontent. unfold normalize_spacing. apply strip_idemp.
    + by apply (chunk_loop_stripped fuel _ _ _ (0, []) chunks) in Hc;
        [| constructor].
Qed.

Lemma cleaned_document_chunks_witness :
  chunk_text 0 (doc_content (clean_markdown Notions.raw_doc))
             CHUNK_SIZE CHUNK_OVERLAP
  = Some [str "# notes.pdf" ++ [newline] ++ str "first line"] /\
  Forall (fun c => strip c = c)
         [str "# notes.pdf" ++ [newline] ++ str "first line"].
Proof.
  assert (chunk_text 0 (doc_content (clean_markdown Notions.raw_doc))
                     CHUNK_SIZE CHUNK_OVERLAP
          = Some [str "# notes.pdf" ++ [newline] ++ str "first line"])
    as Hc by (by vm_compute).
  split; [exact Hc |].
  exact (proj2 (proj2 (proj2
           (cleaned_document_chunks 0 Notions.raw_doc _ Hc)))).
Defined.

Lemma sub_trailing_spaces_cons c t :
  sub_trailing_spaces (c :: t)
  = if Ascii.eqb c space && starts_with [newline] (skip_spaces t)
    then sub_trailing_spaces t
    else c :: sub_trailing_spaces t.
Proof. reflexivity. Qed.

Lemma head_sub_trailing_spaces t :
  starts_with [space] (sub_trailing_spaces t) = true ->
  starts_with [space] t = true.
Proof.
  destruct t as [| c t]; [done |]. rewrite sub_trailing_spaces_cons.
  destruct (Ascii.eqb c space && starts_with [newline] (skip_spaces t))
    eqn:Hdrop; [| done].
  apply andb_true_iff in Hdrop as [Hc _]. by apply Ascii.eqb_eq in Hc as ->.
Qed.

(** Taking the spaces before a newline away brings no two spaces
    together. *)
Lemma sub_trailing_spaces_no_run t :
  contains [space; space] (sub_trailing_spaces t) = true ->
  contains [space; space] t = true.
Proof.
  induction t as [| c t IH]; [done |]. rewrite sub_trailing_spaces_cons.
  destruct (Ascii.eqb c space && starts_with [newline] (skip_spaces t)).
  - intros H. rewrite contains_cons. apply orb_true_iff. right. by apply IH.
  - rewrite !contains_cons, !orb_true_iff, !starts_with_cons.
    intros [H | H]; [left | right; by apply IH].
    destruct (Ascii.eqb space c); [| done].
    by apply head_sub_trailing_spaces.
Qed.

Lemma split_lines_cons c t :
  split_lines (c :: t)
  = if Ascii.eqb c newline then [] :: split_lines t
    else match split_lines t with
         | line :: lines => (c :: line) :: lines
         | [] => [[c]]
         end.
Proof. reflexivity. Qed.

(** [split] returns at least one line, and the first line begins the
    text. *)
Lemma split_lines_first t :
  exists (l0 : text) (ls : list text) (post : text),
    split_lines t = l0 :: ls /\ t = l0 ++ post.
Proof.
  induction t as [| c t (l0 & ls & post & Hs & Ht)].
  - by exists [], [], [].
  - rewrite split_lines_cons. destruct (Ascii.eqb c newline).
    + by exists [], (split_lines t), (c :: t).
    + rewrite Hs. exists (c :: l0), ls, post. by rewrite Ht at 1.
Qed.

(** Every line of a text is a piece of it. *)
Lemma split_lines_piece t (line : text) :
  line ∈ split_lines t -> exists pre post, t = pre ++ line ++ post.
Proof.
  revert line. induction t as [| c t IH]; intros line.
  - intros ->%list_elem_of_singleton. by exists [], [].
  - rewrite split_lines_cons. destruct (Ascii.eqb c newline).
    + intros [-> | Hin]%elem_of_cons; [by exists [], (c :: t) |].
      destruct (IH line Hin) as (pre & post & ->). by exists (c :: pre), post.
    + destruct (split_lines_first t) as (l0 & ls & post0 & Hs & Ht).
      rewrite Hs. intros [-> | Hin]%elem_of_cons.
      * exists [], post0. by rewrite Ht at 1.
      * destruct (IH line) as (pre & post & ->).
        { rewrite Hs. apply elem_of_cons. by right. }
        by exists (c :: pre), post.
Qed.

(** X20.  Inside [clean_markdown] the exception for code blocks never
    applies: [remove_special_characters] leaves no two spaces in a row, so
    no line begins with four spaces, and [normalize_spacing] takes the
    whitespace at the beginning of every line away. *)
Theorem clean_markdown_strips_every_line (t : text) :
  normalize_spacing (fix_ocr_errors (remove_special_characters t))
  = strip (sub_blank_lines
             (join_lines
                (map lstrip
                   (split_lines
                      (sub_trailing_spaces (remove_special_characters t)))))) /\
  Forall (fun line => normalize_line line = lstrip line)
         (split_lines (sub_trailing_spaces (remove_special_characters t))).
Proof.
  assert (Forall (fun line => normalize_line line = lstrip line)
            (split_lines
               (sub_trailing_spaces (remove_special_characters t)))) as Hall.
  { apply List.Forall_forall. intros line Hin%list_elem_of_In.
    unfold normalize_line.
    destruct (starts_with (str "    ") line) eqn:H4; [exfalso | done].
    apply starts_with_iff in H4 as [r ->].
    apply split_lines_piece in Hin as (pre & post & Ht).
    assert (contains [space; space]
              (sub_trailing_spaces (remove_special_characters t)) = true)
      as Hrun.
    { rewrite Ht. apply contains_iff.
      exists pre, ([space; space] ++ r ++ post). by rewrite <- !app_assoc. }
    apply sub_trailing_spaces_no_run in Hrun.
    unfold remove_special_characters in Hrun.
    by rewrite sub_bullets_id, sub_spaces_no_run in Hrun. }
  split; [| exact Hall].
  unfold normalize_spacing, fix_ocr_errors. do 3 f_equal.
  apply List.map_ext_in. intros line Hin.
  by apply (proj1 (List.Forall_forall _ _) Hall).
Qed.

End MarkdownFacts.

(** ** The collection: what ingestion writes, keeps, and counts *)

Module StoreFacts.
Import Text Cleaner Vectorize Store TextFacts IngestFacts.

Lemma upsert_all_lookup_other (recs : list (text * record))
    (c : gmap text record) (k : text) :
  k ∉ recs.*1 -> Spec.upsert_all recs c !! k = c !! k.
Proof.
  intros Hk. rewrite upsert_all_union. apply lookup_union_r.
  apply not_elem_of_list_to_map_1. by rewrite fmap_reverse, elem_of_reverse.
Qed.

Lemma upsert_all_is_Some (recs : list (text * record))
    (c : gmap text record) (k : text) :
  is_Some (c !! k) -> is_Some (Spec.upsert_all recs c !! k).
Proof.
  intros Hk. rewrite upsert_all_union. apply lookup_union_is_Some. by right.
Qed.

Lemma upsert_all_size (recs : list (text * record)) (c : gmap text record) :
  (size c <= size (Spec.upsert_all recs c) <= size c + length recs)%nat.
Proof.
  unfold Spec.upsert_all. revert c.
  induction recs as [| [k v] recs IH]; intros c; simpl; [lia |].
  specialize (IH (<[k:=v]> c)). rewrite map_size_insert in IH.
  destruct (c !! k); unfold id in IH; lia.
Qed.

Lemma records_keys (ids chunks : list text) (metas : list metadata) :
  length metas = length chunks -> length ids = length chunks ->
  (zip ids (zip chunks metas)).*1 = ids.
Proof. intros Hm Hi. apply fst_zip. rewrite length_zip_with. lia. Qed.

(** What [add_documents] does to the collection, in one step. *)
Lemma add_documents_upsert (fuel : nat) (docs : list (gmap string text))
    (c c' : gmap text record) :
  add_documents fuel docs c = Some c' ->
  exists p,
    gather fuel docs (Pending [] [] []) = Some p /\
    length (all_metadatas p) = length (all_chunks p) /\
    length (all_ids p) = length (all_chunks p) /\
    c' = Spec.upsert_all
           (zip (all_ids p) (zip (all_chunks p) (all_metadatas p))) c.
Proof.
  unfold add_documents.
  destruct (gather fuel docs (Pending [] [] [])) as [p |] eqn:Hg; [| done].
  destruct (gather_lengths fuel docs (Pending [] [] []) p eq_refl eq_refl Hg)
    as [Hm Hi].
  intros [= <-]. exists p. repeat split; try done.
  by apply add_batches_upsert.
Qed.

(** X7.  Whatever [add_documents] does, it removes no record and changes
    no record under an id that it does not write: a record under another id
    reads as before, every id that was stored is still stored, and the
    number of records does not go down, nor up by more than the number of
    chunks written. *)
Theorem add_documents_keeps (fuel : nat) (docs : list (gmap string text))
    (c c' : gmap text record) :
  add_documents fuel docs c = Some c' ->
  exists p,
    gather fuel docs (Pending [] [] []) = Some p /\
    (forall id : text, id ∉ all_ids p -> c' !! id = c !! id) /\
    (forall id : text, is_Some (c !! id) -> is_Some (c' !! id)) /\
    collection_count c <= collection_count c'
    <= collection_count c + len (all_chunks p).
Proof.
  intros (p & Hg & Hm & Hi & ->)%add_documents_upsert.
  exists p. split; [done |]. split; [| split].
  - intros id Hid. apply upsert_all_lookup_other. by rewrite records_keys.
  - intros id. apply upsert_all_is_Some.
  - pose proof (upsert_all_size
                  (zip (all_ids p) (zip (all_chunks p) (all_metadatas p))) c)
      as Hs.
    rewrite !length_zip_with in Hs. unfold collection_count, len. lia.
Qed.

Lemma add_documents_keeps_witness :
  add_documents 3 [Notions.report_v1] ∅
  = Some (Spec.upsert_all
            (zip (map (chunk_id (str "report.pdf")) (seq 0 3))
               (zip [Spec.times "a" 1000; Spec.times "a" 1000;
                     Spec.times "a" 800]
                  (map (fun i => Notions.chunk_meta Notions.report_v1 i 3)
                     (seq 0 3)))) ∅) /\
  exists p,
    gather 3 [Notions.report_v1] (Pending [] [] []) = Some p /\
    (forall id : text, id ∉ all_ids p ->
       Spec.upsert_all
         (zip (map (chunk_id (str "report.pdf")) (seq 0 3))
            (zip [Spec.times "a" 1000; Spec.times "a" 1000;
                  Spec.times "a" 800]
               (map (fun i => Notions.chunk_meta Notions.report_v1 i 3)
                  (seq 0 3)))) ∅ !! id = (∅ : gmap text record) !! id).
Proof.
  assert (chunk_text 3 (doc_content Notions.report_v1)
                     CHUNK_SIZE CHUNK_OVERLAP
          = Some [Spec.times "a" 1000; Spec.times "a" 1000;
                  Spec.times "a" 800]) as Hc by (by vm_compute).
  assert (add_documents 3 [Notions.report_v1] ∅
          = Some (Spec.upsert_all
                    (zip (map (chunk_id (str "report.pdf")) (seq 0 3))
                       (zip [Spec.times "a" 1000; Spec.times "a" 1000;
                             Spec.times "a" 800]
                          (map (fun i =>
                                  Notions.chunk_meta Notions.report_v1 i 3)
                             (seq 0 3)))) ∅)) as Ha.
  { rewrite (add_documents_single 3 _ _ ∅ Hc). reflexivity. }
  split; [exact Ha |].
  destruct (add_documents_keeps 3 [Notions.report_v1] ∅ _ Ha)
    as (p & Hg & Hother & _).
  exists p. split; [exact Hg | exact Hother].
Defined.

Lemma single_ids (doc : gmap string text) (chunks : list text) :
  all_ids (gather_document doc chunks (Pending [] [] []))
  = map (chunk_id (get doc "filename" (str "unknown")))
        (seq 0 (length chunks)).
Proof. by rewrite gather_document_ids. Qed.

Lemma single_ids_elem (doc : gmap string text) (chunks : list text)
    (id : text) :
  id ∈ all_ids (gather_document doc chunks (Pending [] [] [])) <->
  exists i : nat,
    (i < length chunks)%nat /\
    id = chunk_id (get doc "filename" (str "unknown")) i.
Proof.
  rewrite single_ids, list_elem_of_In, List.in_map_iff. split.
  - intros (i & <- & Hi%List.in_seq). exists i. split; [lia | done].
  - intros (i & Hi & ->). exists i. split; [done |]. apply List.in_seq. lia.
Qed.

(** The record that the ingestion of one document leaves under the id of
    its chunk [i]. *)
Lemma single_records_lookup (doc : gmap string text) (chunks : list text)
    (c : gmap text record) (i : nat) (chunk : text) :
  chunks !! i = Some chunk ->
  Spec.upsert_all
    (zip (all_ids (gather_document doc chunks (Pending [] [] [])))
       (zip chunks
          (all_metadatas (gather_document doc chunks (Pending [] [] [])))))
    c !! chunk_id (get doc "filename" (str "unknown")) i
  = Some (chunk, Notions.chunk_meta doc i (len chunks)).
Proof.
  intros Hi. simpl. apply (upsert_all_lookup _ _ i).
  - rewrite !lookup_zip_with, !list_lookup_imap, Hi. reflexivity.
  - intros j v' Hj. rewrite !lookup_zip_with, !list_lookup_imap.
    destruct (chunks !! j); simpl; [| done].
    intros [= Hid _]. apply chunk_id_inj in Hid. lia.
Qed.

(** X8.  Ingesting a shorter version of a document under the same file
    name replaces the chunks up to its own number of chunks and leaves the
    later chunks of the longer version in the collection, with their old
    text and their old [total_chunks]. *)
Theorem stale_chunks_remain (fuel : nat) (d1 d2 : gmap string text)
    (chunks1 chunks2 : list text) (c : gmap text record) :
  get d2 "filename" (str "unknown") = get d1 "filename" (str "unknown") ->
  chunk_text fuel (doc_content d1) CHUNK_SIZE CHUNK_OVERLAP = Some chunks1 ->
  chunk_text fuel (doc_content d2) CHUNK_SIZE CHUNK_OVERLAP = Some chunks2 ->
  exists c1 c2,
    add_documents fuel [d1] c = Some c1 /\
    add_documents fuel [d2] c1 = Some c2 /\
    (forall (i : nat) (chunk : text),
       chunks2 !! i = Some chunk ->
       c2 !! chunk_id (get d1 "filename" (str "unknown")) i
       = Some (chunk, Notions.chunk_meta d2 i (len chunks2))) /\
    (forall (i : nat) (chunk : text),
       (length chunks2 <= i)%nat -> chunks1 !! i = Some chunk ->
       c2 !! chunk_id (get d1 "filename" (str "unknown")) i
       = Some (chunk, Notions.chunk_meta d1 i (len chunks1))).
Proof.
  intros Hname Hc1 Hc2. eexists _, _.
  split; [by apply add_documents_single |].
  split; [by apply add_documents_single |]. split.
  - intros i chunk Hi. rewrite <- Hname. by apply single_records_lookup.
  - intros i chunk Hge Hi. rewrite upsert_all_lookup_other.
    + by apply single_records_lookup.
    + rewrite records_keys by (simpl; by rewrite length_imap).
      intros (j & Hj & Hid)%single_ids_elem. rewrite Hname in Hid.
      apply chunk_id_inj in Hid. lia.
Qed.

Lemma stale_chunks_remain_witness :
  get Notions.report_v2 "filename" (str "unknown")
  = get Notions.report_v1 "filename" (str "unknown") /\
  chunk_text 3 (doc_content Notions.report_v1) CHUNK_SIZE CHUNK_OVERLAP
  = Some [Spec.times "a" 1000; Spec.times "a" 1000; Spec.times "a" 800] /\
  chunk_text 3 (doc_content Notions.report_v2) CHUNK_SIZE CHUNK_OVERLAP
  = Some [Spec.times "b" 300] /\
  exists c1 c2,
    add_documents 3 [Notions.report_v1] ∅ = Some c1 /\
    add_documents 3 [Notions.report_v2] c1 = Some c2 /\
    c2 !! str "report.pdf_chunk_0"
    = Some (Spec.times "b" 300, Notions.chunk_meta Notions.report_v2 0 1) /\
    c2 !! str "report.pdf_chunk_2"
    = Some (Spec.times "a" 800, Notions.chunk_meta Notions.report_v1 2 3).
Proof.
  assert (chunk_text 3 (doc_content Notions.report_v1)
                     CHUNK_SIZE CHUNK_OVERLAP
          = Some [Spec.times "a" 1000; Spec.times "a" 1000;
                  Spec.times "a" 800]) as Hc1 by (by vm_compute).
  assert (chunk_text 3 (doc_content Notions.report_v2)
                     CHUNK_SIZE CHUNK_OVERLAP
          = Some [Spec.times "b" 300]) as Hc2 by (by vm_compute).
  split; [reflexivity |]. split; [exact Hc1 |]. split; [exact Hc2 |].
  destruct (stale_chunks_remain 3 Notions.report_v1 Notions.report_v2 _ _ ∅
              eq_refl Hc1 Hc2) as (c1 & c2 & Ha1 & Ha2 & Hnew & Hold).
  exists c1, c2. split; [exact Ha1 |]. split; [exact Ha2 |]. split.
  - exact (Hnew 0%nat _ eq_refl).
  - exact (Hold 2%nat _ ltac:(simpl; lia) eq_refl).
Defined.

(** X9.  A document without any text is stored as one chunk, the empty
    text, under [<filename>_chunk_0] with [total_chunks = 1]. *)
Theorem empty_document_one_chunk (fuel : nat) (d : gmap string text)
    (c : gmap text record) :
  doc_content d = [] ->
  add_documents fuel [d] c
  = Some (<[chunk_id (get d "filename" (str "unknown")) 0 :=
              ([], Notions.chunk_meta d 0 1)]> c).
Proof.
  intros Hd.
  assert (chunk_text fuel (doc_content d) CHUNK_SIZE CHUNK_OVERLAP
          = Some [[]]) as Hc by (by rewrite Hd).
  by rewrite (add_documents_single fuel d _ c Hc).
Qed.

Lemma empty_document_one_chunk_witness :
  doc_content Notions.blank_doc = [] /\
  add_documents 0 [Notions.blank_doc] ∅
  = Some (<[str "blank.pdf_chunk_0" :=
              ([], Notions.chunk_meta Notions.blank_doc 0 1)]> ∅).
Proof.
  split; [reflexivity |].
  exact (empty_document_one_chunk 0 Notions.blank_doc ∅ eq_refl).
Defined.

Lemma single_ids_NoDup (doc : gmap string text) (chunks : list text) :
  NoDup (all_ids (gather_document doc chunks (Pending [] [] []))).
Proof.
  rewrite single_ids.
  assert (Inj (=) (=) (chunk_id (get doc "filename" (str "unknown"))))
    as Hinj by (intros i j; apply chunk_id_inj).
  apply (NoDup_fmap_2 _), NoDup_seq.
Qed.

(** X10.  [create_vector_db] with [reset] set starts from an empty
    collection, whatever the collection held: for one document, the
    collection then holds exactly the records of its chunks, and
    [document_count] is the number of its chunks; the name and the
    directory of the database stay. *)
Theorem create_vector_db_reset (fuel : nat) (db : vector_db)
    (d : gmap string text) (chunks : list text) :
  chunk_text fuel (doc_content d) CHUNK_SIZE CHUNK_OVERLAP = Some chunks ->
  exists db',
    create_vector_db fuel db [d] true = Some db' /\
    document_count (get_collection_stats db') = len chunks /\
    stats_collection_name (get_collection_stats db') = collection_name db /\
    stats_persist_directory (get_collection_stats db')
    = persist_directory db /\
    (forall id : text,
       is_Some (collection db' !! id) <->
       exists i : nat,
         (i < length chunks)%nat /\
         id = chunk_id (get d "filename" (str "unknown")) i).
Proof.
  intros Hc. unfold create_vector_db, db_add_documents, reset_collection.
  cbn [collection persist_directory collection_name].
  rewrite (add_documents_single fuel d chunks ∅ Hc). eexists.
  split; [done |].
  assert (length (all_metadatas (gather_document d chunks (Pending [] [] [])))
          = length chunks) as Hm by (simpl; by rewrite length_imap).
  assert (length (all_ids (gather_document d chunks (Pending [] [] [])))
          = length chunks) as Hi by (simpl; by rewrite length_imap).
  split; [| split; [done | split; [done |]]].
  - unfold get_collection_stats. cbn [document_count collection].
    unfold collection_count, len. f_equal.
    rewrite upsert_all_union, (right_id_L ∅ (∪)).
    rewrite map_size_list_to_map.
    + rewrite length_reverse, !length_zip_with. lia.
    + rewrite fmap_reverse, reverse_Permutation.
      rewrite records_keys by done. apply single_ids_NoDup.
  - intros id. cbn [collection]. split.
    + intros Hid.
      destruct (decide (id ∈ all_ids
                          (gather_document d chunks (Pending [] [] []))))
        as [Hin | Hout]; [by apply single_ids_elem |].
      rewrite upsert_all_lookup_other in Hid
        by (by rewrite records_keys).
      rewrite lookup_empty in Hid. by destruct Hid.
    + intros (i & Hlt & ->).
      destruct (lookup_lt_is_Some_2 chunks i Hlt) as [chunk Hchunk].
      rewrite (single_records_lookup d chunks _ i chunk Hchunk). by eexists.
Qed.

Lemma create_vector_db_reset_witness :
  chunk_text 3 (doc_content Notions.report_v1) CHUNK_SIZE CHUNK_OVERLAP
  = Some [Spec.times "a" 1000; Spec.times "a" 1000; Spec.times "a" 800] /\
  exists db',
    create_vector_db 3
      (VectorDB (str "/vector_db") (str "pdf_documents")
                {[ str "old.pdf_chunk_0" :=
                     (str "old", Notions.chunk_meta ∅ 0 1) ]})
      [Notions.report_v1] true = Some db' /\
    document_count (get_collection_stats db') = 3.
Proof.
  assert (chunk_text 3 (doc_content Notions.report_v1)
                     CHUNK_SIZE CHUNK_OVERLAP
          = Some [Spec.times "a" 1000; Spec.times "a" 1000;
                  Spec.times "a" 800]) as Hc by (by vm_compute).
  split; [exact Hc |].
  destruct (create_vector_db_reset 3
              (VectorDB (str "/vector_db") (str "pdf_documents")
                        {[ str "old.pdf_chunk_0" :=
                             (str "old", Notions.chunk_meta ∅ 0 1) ]})
              Notions.report_v1 _ Hc) as (db' & Hdb & Hcount & _).
  exists db'. split; [exact Hdb | exact Hcount].
Defined.

Lemma gather_document_match (doc : gmap string text) (chunks : list text)
    (acc : pending) :
  Forall2 Notions.id_matches (all_ids acc) (all_metadatas acc) ->
  Forall2 Notions.id_matches
    (all_ids (gather_document doc chunks acc))
    (all_metadatas (gather_document doc chunks acc)).
Proof.
  intros Hacc. simpl. apply Forall2_app; [done |].
  apply Forall2_same_length_lookup_2; [by rewrite !length_imap |].
  intros i id m. rewrite !list_lookup_imap.
  destruct (chunks !! i) as [chunk |] eqn:Hi; simpl; [| done].
  intros [= <-] [= <-]. apply lookup_lt_Some in Hi.
  split; simpl; [by rewrite Nat2Z.id | unfold len; lia].
Qed.

Lemma gather_match (fuel : nat) (docs : list (gmap string text))
    (acc p : pending) :
  Forall2 Notions.id_matches (all_ids acc) (all_metadatas acc) ->
  gather fuel docs acc = Some p ->
  Forall2 Notions.id_matches (all_ids p) (all_metadatas p).
Proof.
  revert acc. induction docs as [| doc docs IH]; intros acc Hacc; simpl.
  - by intros [= <-].
  - destruct (chunk_text fuel (doc_content doc) CHUNK_SIZE CHUNK_OVERLAP)
      as [chunks |]; [| done].
    apply IH. by apply gather_document_match.
Qed.

(** X11.  The three lists that [add_documents] hands to the index have the
    same length, and at every position the id is the one that the metadata
    spell out, [<filename>_chunk_<chunk_index>], with [0 <= chunk_index <
    total_chunks]. *)
Theorem gathered_ids_match (fuel : nat) (docs : list (gmap string text))
    (p : pending) :
  gather fuel docs (Pending [] [] []) = Some p ->
  length (all_metadatas p) = length (all_chunks p) /\
  length (all_ids p) = length (all_chunks p) /\
  Forall2 Notions.id_matches (all_ids p) (all_metadatas p).
Proof.
  intros Hg.
  destruct (gather_lengths fuel docs (Pending [] [] []) p eq_refl eq_refl Hg)
    as [Hm Hi].
  split; [done |]. split; [done |].
  apply (gather_match fuel docs (Pending [] [] []) p); [constructor | done].
Qed.

Lemma gathered_ids_match_witness :
  gather 3 [Notions.report_v1; Notions.blank_doc] (Pending [] [] [])
  = Some (gather_document Notions.blank_doc [[]]
            (gather_document Notions.report_v1
               [Spec.times "a" 1000; Spec.times "a" 1000; Spec.times "a" 800]
               (Pending [] [] []))) /\
  Forall2 Notions.id_matches
    (all_ids (gather_document Notions.blank_doc [[]]
                (gather_document Notions.report_v1
                   [Spec.times "a" 1000; Spec.times "a" 1000;
                    Spec.times "a" 800] (Pending [] [] []))))
    (all_metadatas (gather_document Notions.blank_doc [[]]
                      (gather_document Notions.report_v1
                         [Spec.times "a" 1000; Spec.times "a" 1000;
                          Spec.times "a" 800] (Pending [] [] [])))).
Proof.
  assert (gather 3 [Notions.report_v1; Notions.blank_doc] (Pending [] [] [])
          = Some (gather_document Notions.blank_doc [[]]
                    (gather_document Notions.report_v1
                       [Spec.times "a" 1000; Spec.times "a" 1000;
                        Spec.times "a" 800] (Pending [] [] [])))) as Hg.
  { assert (chunk_text 3 (doc_content Notions.report_v1)
                       CHUNK_SIZE CHUNK_OVERLAP
            = Some [Spec.times "a" 1000; Spec.times "a" 1000;
                    Spec.times "a" 800]) as Hc by (by vm_compute).
    cbn [gather]. rewrite Hc. reflexivity. }
  split; [exact Hg |].
  exact (proj2 (proj2 (gathered_ids_match 3 _ _ Hg))).
Defined.

(** A batch is the next hundred items of the list. *)
Lemma slice_batch {A} (l : list A) (j : nat) :
  slice l (100 * Z.of_nat j)
        (Z.min (100 * Z.of_nat j + batch_size) (Z.of_nat (length l)))
  = take 100 (drop (100 * j) l).
Proof.
  unfold batch_size.
  replace (100 * Z.of_nat j) with (Z.of_nat (100 * j)) by lia.
  replace (Z.min (Z.of_nat (100 * j) + 100) (Z.of_nat (length l)))
    with (Z.of_nat (Nat.min (100 * j + 100) (length l))) by lia.
  rewrite slice_nat.
  destruct (Nat.le_gt_cases (100 * j + 100) (length l)) as [Hle | Hgt].
  - f_equal. lia.
  - rewrite !take_ge; [done | |]; rewrite length_drop; lia.
Qed.

Lemma slice_batch_eq {A} (l : list A) (j n : nat) :
  length l = n ->
  slice l (batch_size * Z.of_nat j)
        (Z.min (batch_size * Z.of_nat j + batch_size) (Z.of_nat n))
  = take 100 (drop (100 * j) l).
Proof. intros <-. apply slice_batch. Qed.

Lemma batch_concat {A} (l : list A) (j m : nat) :
  concat (map (fun k =>
                 slice l (100 * Z.of_nat k)
                       (Z.min (100 * Z.of_nat k + batch_size)
                              (Z.of_nat (length l))))
              (seq j m))
  = take (100 * m) (drop (100 * j) l).
Proof.
  revert j. induction m as [| m IH]; intros j.
  - by rewrite Nat.mul_0_r, take_0.
  - cbn [seq map concat]. rewrite slice_batch, IH.
    replace (100 * S m)%nat with (100 + 100 * m)%nat by lia.
    rewrite <- take_take_drop, drop_drop.
    by replace (100 * j + 100)%nat with (100 * S j)%nat by lia.
Qed.

(** The number of batches, and where the last one begins. *)
Lemma batch_count (n k : nat) :
  (k < Z.to_nat ((Z.of_nat n + batch_size - 1) / batch_size))%nat ->
  (100 * k < n)%nat.
Proof.
  unfold batch_size. intros Hk.
  pose proof (Z.mul_div_le (Z.of_nat n + 100 - 1) 100 ltac:(lia)).
  pose proof (Z.div_pos (Z.of_nat n + 100 - 1) 100 ltac:(lia) ltac:(lia)).
  lia.
Qed.

Lemma batch_cover (n : nat) :
  (n <= 100 * Z.to_nat ((Z.of_nat n + batch_size - 1) / batch_size))%nat.
Proof.
  unfold batch_size.
  pose proof (Z.mul_succ_div_gt (Z.of_nat n + 100 - 1) 100 ltac:(lia)).
  pose proof (Z.div_pos (Z.of_nat n + 100 - 1) 100 ltac:(lia) ltac:(lia)).
  lia.
Qed.

Lemma batch_part {A} (f : list text * list metadata * list text -> list A)
    (l : list A) (p : pending) :
  length l = length (all_chunks p) ->
  (forall i : Z,
     f (slice (all_chunks p) i
          (Z.min (i + batch_size) (len (all_chunks p))),
        slice (all_metadatas p) i
          (Z.min (i + batch_size) (len (all_chunks p))),
        slice (all_ids p) i
          (Z.min (i + batch_size) (len (all_chunks p))))
     = slice l i (Z.min (i + batch_size) (len (all_chunks p)))) ->
  concat (map f (Notions.batches p)) = l.
Proof.
  intros Hl Hf. unfold Notions.batches, range_step.
  rewrite !List.map_map.
  erewrite List.map_ext; [| intros k; apply Hf].
  unfold len. rewrite <- Hl.
  replace (fun k : nat =>
             slice l (batch_size * Z.of_nat k)
               (Z.min (batch_size * Z.of_nat k + batch_size)
                      (Z.of_nat (length l))))
    with (fun k : nat =>
            slice l (100 * Z.of_nat k)
              (Z.min (100 * Z.of_nat k + batch_size) (Z.of_nat (length l))))
    by done.
  rewrite batch_concat, drop_0. apply take_ge, batch_cover.
Qed.

(** X12.  The calls to [collection.add] take the gathered lists in
    batches: no batch is empty or longer than 100, the three lists of a
    batch have the same length, and the batches, one after the other, are
    the gathered lists: no chunk is left out, repeated or moved. *)
Theorem batches_partition (p : pending) (c : gmap text record) :
  length (all_metadatas p) = length (all_chunks p) ->
  length (all_ids p) = length (all_chunks p) ->
  add_batches p c
  = foldl (fun c b => collection_add b.1.1 b.1.2 b.2 c) c (Notions.batches p) /\
  concat (map (fun b => b.1.1) (Notions.batches p)) = all_chunks p /\
  concat (map (fun b => b.1.2) (Notions.batches p)) = all_metadatas p /\
  concat (map snd (Notions.batches p)) = all_ids p /\
  Forall (fun b => (1 <= length b.1.1 <= 100)%nat /\
                   length b.1.2 = length b.1.1 /\
                   length b.2 = length b.1.1)
         (Notions.batches p).
Proof.
  intros Hm Hi. split; [| split; [| split; [| split]]].
  - unfold add_batches, Notions.batches.
    generalize (range_step (len (all_chunks p)) batch_size). intros l.
    revert c. induction l as [| i l IH]; intros c; [done |]. apply IH.
  - by apply batch_part.
  - by apply batch_part.
  - by apply batch_part.
  - unfold Notions.batches, range_step. apply List.Forall_forall.
    intros b (i & <- & (k & <- & Hk%List.in_seq)%List.in_map_iff)%List.in_map_iff.
    cbn [fst snd]. unfold len.
    rewrite (slice_batch_eq (all_chunks p) k _ eq_refl).
    rewrite (slice_batch_eq (all_metadatas p) k _ Hm).
    rewrite (slice_batch_eq (all_ids p) k _ Hi).
    rewrite !length_take, !length_drop.
    assert (100 * k < length (all_chunks p))%nat as Hlt.
    { apply batch_count. unfold len in Hk. lia. }
    lia.
Qed.

Lemma batches_partition_witness :
  concat (map snd (Notions.batches
                     (Pending (replicate 250 (str "chunk"))
                              (replicate 250 (Notions.chunk_meta ∅ 0 250))
                              (replicate 250 (str "id")))))
  = replicate 250 (str "id") /\
  map (fun b => length b.1.1)
      (Notions.batches
         (Pending (replicate 250 (str "chunk"))
                  (replicate 250 (Notions.chunk_meta ∅ 0 250))
                  (replicate 250 (str "id"))))
  = [100; 100; 50]%nat.
Proof.
  split; [| by vm_compute].
  exact (proj1 (proj2 (proj2 (proj2
           (batches_partition
              (Pending (replicate 250 (str "chunk"))
                       (replicate 250 (Notions.chunk_meta ∅ 0 250))
                       (replicate 250 (str "id")))
              ∅ eq_refl eq_refl))))).
Defined.

End StoreFacts.

(** ** Queries, the table of the CLI and the answer *)

Module AnswerFacts.
Import Text Vectorize Callers Markdown Llm Cli.
Import TextFacts StringFacts VectorizeFacts CallerFacts.

Lemma elem_take {A} (x : A) (k : nat) (l : list A) : x ∈ take k l -> x ∈ l.
Proof.
  intros Hx. rewrite <- (take_drop k l). apply elem_of_app. by left.
Qed.

(** X13.  With a keyword and [n_results >= 1], when the index returns
    candidates, [query] returns as many rows as there are candidates with
    the keyword, up to [n_results], and no row at all when no candidate has
    it: the three lists of the result have that same length, every
    document returned contains the keyword, whatever the case, and the rows
    returned are rows of the candidates, in their order. *)
Theorem query_keyword_count (collection_query : text -> Z -> results)
    (q : text) (n : Z) (k : ascii) (kw : text) :
  1 <= n ->
  documents (collection_query q (n * 3)) <> [] ->
  length (documents (query collection_query q n (Some (k :: kw))))
  = Nat.min (Z.to_nat n)
      (length (List.filter (Spec.matches (k :: kw))
                 (rows (collection_query q (n * 3))))) /\
  length (metadatas (query collection_query q n (Some (k :: kw))))
  = length (documents (query collection_query q n (Some (k :: kw)))) /\
  length (distances (query collection_query q n (Some (k :: kw))))
  = length (documents (query collection_query q n (Some (k :: kw)))) /\
  Forall (fun doc => contains (lower (k :: kw)) (lower doc) = true)
         (documents (query collection_query q n (Some (k :: kw)))) /\
  rows (query collection_query q n (Some (k :: kw)))
    `sublist_of` rows (collection_query q (n * 3)) /\
  (List.filter (Spec.matches (k :: kw)) (rows (collection_query q (n * 3))) = [] ->
   query collection_query q n (Some (k :: kw)) = Results [] [] []).
Proof.
  intros Hn Hd.
  assert (rows (query collection_query q n (Some (k :: kw)))
          = take (Z.to_nat n)
              (List.filter (Spec.matches (k :: kw))
                 (rows (collection_query q (n * 3))))) as Hrows.
  { rewrite query_keyword_rows. f_equal. lia. }
  split; [| split; [| split; [| split; [| split]]]].
  5: { rewrite Hrows. etrans; [apply sublist_take |].
       clear. induction (rows (collection_query q (n * 3))) as [| x l IH];
         simpl; [done |].
       destruct (Spec.matches (k :: kw) x);
         [by apply sublist_skip | by apply sublist_cons]. }
  all: unfold query; simpl truthy; cbv iota.
  all: destruct (documents (collection_query q (n * 3))) eqn:Hdocs; [done |].
  all: rewrite keyword_loop_fields; cbn [documents metadatas distances app].
  all: rewrite ?length_map, ?Z.sub_0_r.
  all: replace (Z.to_nat (Z.max 1 n)) with (Z.to_nat n) by lia.
  - apply length_take.
  - done.
  - done.
  - apply List.Forall_forall. intros doc (row & <- & Hrow)%List.in_map_iff.
    apply list_elem_of_In, elem_take, list_elem_of_In in Hrow.
    by apply List.filter_In in Hrow as [_ Hrow].
  - intros Hnone.
    change (List.filter (fun r : text * metadata * Q =>
                           contains (lower (k :: kw)) (lower r.1.1)))
      with (List.filter (Spec.matches (k :: kw))).
    by rewrite Hnone, take_nil.
Qed.

Lemma query_keyword_count_witness :
  1 <= 2 /\
  documents (Spec.ten_index (str "money") (2 * 3)) <> [] /\
  length (documents (query Spec.ten_index (str "money") 2
                           (Some (str "Budget"))))
  = Nat.min (Z.to_nat 2)
      (length (List.filter (Spec.matches (str "Budget"))
                 (rows (Spec.ten_index (str "money") (2 * 3))))) /\
  documents (query Spec.ten_index (str "money") 2 (Some (str "Budget")))
  = [str "the BUDGET plan"; str "budget cuts"].
Proof.
  split; [lia |]. split; [by vm_compute |].
  split; [| by vm_compute].
  apply (query_keyword_count Spec.ten_index (str "money") 2 "B" (str "udget"));
    [lia | by vm_compute].
Defined.

Lemma keeps_antitone m (a b : text * metadata * Q) :
  (a.2 <= b.2)%Q -> Spec.keeps m b = true -> Spec.keeps m a = true.
Proof.
  unfold Spec.keeps. rewrite !Qle_bool_iff. intros Hab Hb.
  eapply Qle_trans; [exact Hb |]. by apply similarity_spec_antitone.
Qed.

Lemma filter_none {A} (f : A -> bool) (l : list A) :
  Forall (fun x => f x = false) l -> List.filter f l = [].
Proof. induction 1 as [| x l Hx _ IH]; simpl; [done |]. by rewrite Hx. Qed.

(** Of rows by ascending distance, the ones that reach the threshold are
    the first few. *)
Lemma filter_prefix m (l : list (text * metadata * Q)) :
  Spec.ascending l ->
  exists k : nat, (k <= length l)%nat /\ List.filter (Spec.keeps m) l = take k l.
Proof.
  induction 1 as [| a l Hs (k & Hk & IH) Ha].
  - by exists 0%nat.
  - simpl. destruct (Spec.keeps m a) eqn:Hkeep.
    + exists (S k). split; [simpl; lia |]. simpl. by rewrite IH.
    + exists 0%nat. split; [lia |]. simpl. apply filter_none.
      eapply Forall_impl; [exact Ha |]. intros b Hab. simpl in Hab.
      destruct (Spec.keeps m b) eqn:Hb; [| done].
      by rewrite (keeps_antitone m a b Hab Hb) in Hkeep.
Qed.

(** X14.  When the result lists its rows by ascending distance, as the
    index returns them, the rows that reach the threshold are the first
    rows of the result: the table of the CLI, the chunks that [main] hands
    to the LLM and the sources of the web UI are a prefix of the result. *)
Theorem kept_rows_are_prefix (r : results) (m : Q) :
  Spec.ascending (rows r) ->
  exists k : nat,
    (k <= length (rows r))%nat /\
    display_results r m = map Spec.with_similarity (take k (rows r)) /\
    main_filter r m
    = (map (fun row => row.1.1) (take k (rows r)),
       map (fun row => row.1.2) (take k (rows r))).
Proof.
  intros (k & Hk & Hf)%(filter_prefix m). exists k. split; [done |].
  by rewrite display_results_rows, main_filter_rows, Hf.
Qed.

Lemma kept_rows_are_prefix_witness :
  Spec.ascending (rows Spec.three_rows) /\
  exists k : nat,
    (k <= length (rows Spec.three_rows))%nat /\
    display_results Spec.three_rows 60
    = map Spec.with_similarity (take k (rows Spec.three_rows)).
Proof.
  assert (Spec.ascending (rows Spec.three_rows)) as Hs.
  { repeat constructor; simpl; intros H; discriminate H. }
  split; [exact Hs |].
  destruct (kept_rows_are_prefix Spec.three_rows 60 Hs) as (k & Hk & Hd & _).
  exists k. split; [exact Hk | exact Hd].
Defined.

Lemma zip3_lookup {A B C} (a : list A) (b : list B) (c : list C) (i : nat)
    (x : A) (y : B) (z : C) :
  zip3 a b c !! i = Some (x, y, z) ->
  a !! i = Some x /\ b !! i = Some y /\ c !! i = Some z.
Proof.
  revert b c i. induction a as [| x0 a IH]; intros [| y0 b] [| z0 c] i;
    try done.
  destruct i as [| i]; simpl; [by intros [= -> -> ->] | apply IH].
Qed.

(** X15.  When the result lists its rows by ascending distance, the panel
    that [display_results] opens for a rank of the table shows the document
    and the metadata of the row of that rank.  The panel reads the result,
    not the table: without the order it can show a row that the table does
    not hold, as for the distances 0.2, 0.8, 1.5, 1.9, 0.05. *)
Theorem detail_panel_matches_table :
  (forall (r : results) (m : Q) (n : nat) (row : text * metadata * Q),
     Spec.ascending (rows r) -> (1 <= n)%nat ->
     display_results r m !! (n - 1)%nat = Some row ->
     detail_panel r m n = Some (row.1.1, row.1.2)) /\
  (fun row => row.1.1) <$> display_results Spec.five_rows 60 !! 2%nat
  = Some (str "row 4") /\
  fst <$> detail_panel Spec.five_rows 60 3 = Some (str "row 2").
Proof.
  split; [| split; by vm_compute].
  intros r m n row Hs Hn Hrow.
  destruct (filter_prefix m (rows r) Hs) as (k & Hk & Hf).
  unfold detail_panel. destruct (display_results r m) eqn:Hd; [done |].
  rewrite <- Hd in Hrow. rewrite display_results_rows, Hf in Hrow.
  change (map Spec.with_similarity (take k (rows r)))
    with (Spec.with_similarity <$> take k (rows r)) in Hrow.
  rewrite list_lookup_fmap in Hrow.
  destruct (take k (rows r) !! (n - 1)%nat) as [[[doc meta] dist] |] eqn:Ht;
    [| done].
  injection Hrow as <-. apply lookup_take_Some in Ht as [Ht _].
  apply zip3_lookup in Ht as (Hdoc & Hmeta & _).
  apply lookup_lt_Some in Hdoc as Hlt. rewrite Hdoc, Hmeta.
  destruct (Z.leb_spec 1 (Z.of_nat n)); [| lia].
  by destruct (Z.leb_spec (Z.of_nat n) (len (documents r)));
    [| unfold len in *; lia].
Qed.

Lemma detail_panel_matches_table_witness :
  Spec.ascending (rows Spec.three_rows) /\ (1 <= 2)%nat /\
  display_results Spec.three_rows 60 !! (2 - 1)%nat
  = Some (Spec.with_similarity
            (str "row 1", Spec.meta_of "report.pdf" 1 3, (2 # 10)%Q)) /\
  detail_panel Spec.three_rows 60 2
  = Some (str "row 1", Spec.meta_of "report.pdf" 1 3).
Proof.
  assert (Spec.ascending (rows Spec.three_rows)) as Hs.
  { repeat constructor; simpl; intros H; discriminate H. }
  assert (display_results Spec.three_rows 60 !! (2 - 1)%nat
          = Some (Spec.with_similarity
                    (str "row 1", Spec.meta_of "report.pdf" 1 3, (2 # 10)%Q)))
    as Hrow by reflexivity.
  split; [exact Hs |]. split; [lia |]. split; [exact Hrow |].
  exact (proj1 detail_panel_matches_table Spec.three_rows 60%Q 2%nat _
           Hs ltac:(lia) Hrow).
Defined.

(** What [query_rag] returns, by the rows that reach the threshold. *)
Lemma query_rag_cases (db_query : text -> Z -> option text -> results)
    (generate_answer : text -> list text -> list metadata -> text)
    (q : text) (m : Q) (n : Z) :
  query_rag db_query generate_answer q m n
  = match map Spec.with_similarity
            (List.filter (Spec.keeps m) (rows (db_query q 10 None))) with
    | [] => (None, [])
    | row :: kept =>
        (Some (generate_answer q
                 (map (fun r => r.1.1) (slice (row :: kept) 0 n))
                 (map (fun r => r.1.2) (slice (row :: kept) 0 n))),
         slice (row :: kept) 0 n)
    end.
Proof.
  unfold query_rag. destruct (documents (db_query q 10 None)) eqn:Hd.
  - unfold rows. by rewrite Hd.
  - rewrite threshold_loop3_rows. simpl.
    generalize (map Spec.with_similarity
                  (List.filter (Spec.keeps m) (rows (db_query q 10 None)))).
    intros kept. rewrite !slice_map, zip3_triples. by destruct kept.
Qed.

(** X16.  [query_rag] returns no answer and no source exactly when no row
    reaches the threshold; otherwise the chunks and the metadata that it
    hands to [generate_answer] are, position by position, those of the
    sources that it returns, and for [n_results >= 0] there are at most
    [n_results] sources. *)
Theorem query_rag_answer_sources
    (db_query : text -> Z -> option text -> results)
    (generate_answer : text -> list text -> list metadata -> text)
    (q : text) (m : Q) (n : Z) :
  (List.filter (Spec.keeps m) (rows (db_query q 10 None)) = [] ->
   query_rag db_query generate_answer q m n = (None, [])) /\
  (List.filter (Spec.keeps m) (rows (db_query q 10 None)) <> [] ->
   (query_rag db_query generate_answer q m n).1
   = Some (generate_answer q
             (map (fun r => r.1.1)
                (query_rag db_query generate_answer q m n).2)
             (map (fun r => r.1.2)
                (query_rag db_query generate_answer q m n).2))) /\
  (0 <= n -> len (query_rag db_query generate_answer q m n).2 <= n).
Proof.
  rewrite query_rag_cases. split; [| split].
  - by intros ->.
  - intros Hne.
    destruct (List.filter (Spec.keeps m) (rows (db_query q 10 None)));
      [done | reflexivity].
  - intros Hn.
    destruct (map Spec.with_similarity _) as [| row kept];
      [unfold len; simpl; lia |].
    cbn [snd]. pose proof (length_slice_le (row :: kept) 0 n). lia.
Qed.

Lemma query_rag_answer_sources_witness :
  List.filter (Spec.keeps 60) (rows (Spec.five_rows)) <> [] /\
  (0 <= 2)%Z /\
  len (query_rag (fun _ _ _ => Spec.five_rows) (fun q _ _ => q)
                 (str "why") 60 2).2 <= 2.
Proof.
  split; [by vm_compute |]. split; [lia |].
  apply (proj2 (proj2 (query_rag_answer_sources
                         (fun _ _ _ => Spec.five_rows) (fun q _ _ => q)
                         (str "why") 60 2))).
  lia.
Defined.

Lemma join_lines_cons (line : text) (lines : list text) :
  join_lines (line :: lines)
  = match lines with
    | [] => line
    | _ :: _ => line ++ newline :: join_lines lines
    end.
Proof. reflexivity. Qed.

(** A line of a joined text occurs in it. *)
Lemma join_lines_contains (lines : list text) (i : nat) (line : text) :
  lines !! i = Some line -> contains line (join_lines lines) = true.
Proof.
  revert i. induction lines as [| x lines IH]; intros i; [done |].
  rewrite join_lines_cons. destruct i as [| i]; simpl lookup.
  - intros [= ->]. apply contains_iff. destruct lines.
    + exists [], []. by rewrite app_nil_r.
    + by exists [], (newline :: join_lines (t :: lines)).
  - intros Hi. destruct lines as [| y lines]; [done |].
    apply (IH i) in Hi. apply contains_iff in Hi as (l & r & ->).
    apply contains_iff. exists (x ++ newline :: l), r.
    by rewrite <- app_assoc.
Qed.

Lemma contains_trans (a b c : text) :
  contains a b = true -> contains b c = true -> contains a c = true.
Proof.
  rewrite !contains_iff. intros (l1 & r1 & ->) (l2 & r2 & ->).
  exists (l2 ++ l1), (r1 ++ r2). by rewrite <- !app_assoc.
Qed.

Lemma contains_app_l (s a b : text) :
  contains s a = true -> contains s (a ++ b) = true.
Proof.
  rewrite !contains_iff. intros (l & r & ->).
  exists l, (r ++ b). by rewrite <- !app_assoc.
Qed.

Lemma contains_app_r (s a b : text) :
  contains s b = true -> contains s (a ++ b) = true.
Proof.
  rewrite !contains_iff. intros (l & r & ->).
  exists (a ++ l), r. by rewrite <- !app_assoc.
Qed.

Lemma contains_refl (s : text) : contains s s = true.
Proof. apply contains_iff. exists [], []. by rewrite app_nil_r. Qed.

Lemma format_context_some (chunks : list text)
    (metadata : option (list metadata)) (i : nat) (chunk : text) :
  chunks !! i = Some chunk ->
  format_context chunks metadata
  = join_lines
      (imap (fun i chunk =>
               let source :=
                 match metadata with
                 | Some (m :: ms) =>
                     match (m :: ms) !! i with
                     | Some meta => source_of meta
                     | None => []
                     end
                 | _ => []
                 end in
               str "[" ++ str_of_nat (S i) ++ str "]" ++ source
               ++ newline :: chunk ++ [newline])
            chunks).
Proof. by destruct chunks. Qed.

(** The block of the context for chunk [i] (from 0) with its source. *)
Lemma format_context_block (chunks : list text) (metas : list metadata)
    (i : nat) (chunk : text) (meta : metadata) :
  chunks !! i = Some chunk -> metas !! i = Some meta ->
  contains (str "[" ++ str_of_nat (S i) ++ str "]" ++ source_of meta
            ++ newline :: chunk ++ [newline])
           (format_context chunks (Some metas)) = true.
Proof.
  intros Hc Hm. rewrite (format_context_some _ _ i chunk Hc).
  apply (join_lines_contains _ i). rewrite list_lookup_imap.
  unfold text in *. rewrite Hc.
  destruct metas as [| m0 metas]; [done |]. cbn [fmap option_fmap option_map].
  by rewrite Hm.
Qed.

(** X17.  [_format_context] answers an empty list of chunks with the
    sentence "No relevant information found.", whatever the metadata.
    Otherwise the context holds, for every chunk in order, the marker of
    its position from 1, the chunk itself, and between them the file name
    and the chunk number ([chunk_index + 1]) of the metadata at the same
    position when there is one; a chunk beyond the metadata, or without
    metadata, has the marker alone. *)
Theorem format_context_markers :
  (forall md, format_context [] md = str "No relevant information found.") /\
  (forall (chunks : list text) (metas : list metadata) (i : nat)
          (chunk : text) (meta : metadata),
     chunks !! i = Some chunk -> metas !! i = Some meta ->
     contains (str "[" ++ str_of_nat (S i) ++ str "]" ++ source_of meta
               ++ newline :: chunk ++ [newline])
              (format_context chunks (Some metas)) = true) /\
  (forall (chunks : list text) (md : option (list metadata)) (i : nat)
          (chunk : text),
     chunks !! i = Some chunk ->
     md = None \/ (exists metas, md = Some metas /\ metas !! i = None) ->
     contains (str "[" ++ str_of_nat (S i) ++ str "]"
               ++ newline :: chunk ++ [newline])
              (format_context chunks md) = true).
Proof.
  split; [done |]. split; [apply format_context_block |].
  intros chunks md i chunk Hc Hmd.
  rewrite (format_context_some _ _ i chunk Hc).
  apply (join_lines_contains _ i). rewrite list_lookup_imap.
  unfold text in *. rewrite Hc.
  cbn [fmap option_fmap option_map].
  destruct Hmd as [-> | (metas & -> & Hm)]; [done |].
  destruct metas as [| m0 metas]; [done |]. by rewrite Hm.
Qed.

Lemma format_context_markers_witness :
  [str "one"; str "two"] !! 1%nat = Some (str "two") /\
  [Spec.meta_of "f.pdf" 0 2; Spec.meta_of "f.pdf" 1 2] !! 1%nat
  = Some (Spec.meta_of "f.pdf" 1 2) /\
  contains (str "[2] (Source: f.pdf, Chunk 2)" ++ newline :: str "two"
            ++ [newline])
           (format_context [str "one"; str "two"]
              (Some [Spec.meta_of "f.pdf" 0 2; Spec.meta_of "f.pdf" 1 2]))
  = true.
Proof.
  split; [reflexivity |]. split; [reflexivity |].
  exact (proj1 (proj2 format_context_markers)
           [str "one"; str "two"]
           [Spec.meta_of "f.pdf" 0 2; Spec.meta_of "f.pdf" 1 2]
           1%nat (str "two") (Spec.meta_of "f.pdf" 1 2) eq_refl eq_refl).
Defined.

Lemma create_prompt_contains (question context : text) :
  contains context (create_prompt question context) = true /\
  contains question (create_prompt question context) = true.
Proof.
  unfold create_prompt. split.
  - do 6 apply contains_app_r. apply contains_app_l, contains_refl.
  - do 9 apply contains_app_r. apply contains_app_l, contains_refl.
Qed.

(** X18.  In the web UI, with [generate_answer] of [llm.py] as the
    generator, an answer is what the provider returns for a prompt that
    holds the question and, for every source shown, at its position, the
    block of the context with the marker of that position, the file name
    and chunk number of the source, and its text: the numbers that the
    answer may cite are the numbers of the sources shown. *)
Theorem web_answer_cites_sources
    (complete : text -> text)
    (db_query : text -> Z -> option text -> results)
    (q : text) (m : Q) (n : Z) (answer : text) :
  (query_rag db_query
     (fun q chunks metas => generate_answer complete q chunks (Some metas))
     q m n).1 = Some answer ->
  exists prompt,
    answer = complete prompt /\
    contains q prompt = true /\
    forall (i : nat) (doc : text) (meta : metadata) (sim : Q),
      (query_rag db_query
         (fun q chunks metas => generate_answer complete q chunks (Some metas))
         q m n).2 !! i = Some (doc, meta, sim) ->
      contains (str "[" ++ str_of_nat (S i) ++ str "]" ++ source_of meta
                ++ newline :: doc ++ [newline]) prompt = true.
Proof.
  rewrite query_rag_cases.
  destruct (map Spec.with_similarity _) as [| row kept]; [done |].
  cbn [fst snd]. intros [= <-]. unfold generate_answer. eexists.
  split; [done |]. split; [apply (proj2 (create_prompt_contains _ _)) |].
  intros i doc meta sim Hi.
  eapply contains_trans; [| apply (proj1 (create_prompt_contains _ _))].
  apply (format_context_block _ _ i).
  - change (map (fun r : text * metadata * Q => r.1.1) (slice (row :: kept) 0 n))
      with ((fun r : text * metadata * Q => r.1.1)
              <$> slice (row :: kept) 0 n).
    by rewrite list_lookup_fmap, Hi.
  - change (map (fun r : text * metadata * Q => r.1.2) (slice (row :: kept) 0 n))
      with ((fun r : text * metadata * Q => r.1.2)
              <$> slice (row :: kept) 0 n).
    by rewrite list_lookup_fmap, Hi.
Qed.

Lemma web_answer_cites_sources_witness :
  (query_rag (fun _ _ _ => Spec.three_rows)
     (fun q chunks metas => generate_answer (fun p => p) q chunks (Some metas))
     (str "why") 60 5).1
  = Some (create_prompt (str "why")
            (format_context [str "row 0"; str "row 1"]
               (Some [Spec.meta_of "report.pdf" 0 3;
                      Spec.meta_of "report.pdf" 1 3]))) /\
  exists prompt,
    create_prompt (str "why")
      (format_context [str "row 0"; str "row 1"]
         (Some [Spec.meta_of "report.pdf" 0 3;
                Spec.meta_of "report.pdf" 1 3])) = prompt /\
    contains (str "why") prompt = true.
Proof.
  assert ((query_rag (fun _ _ _ => Spec.three_rows)
             (fun q chunks metas =>
                generate_answer (fun p => p) q chunks (Some metas))
             (str "why") 60 5).1
          = Some (create_prompt (str "why")
                    (format_context [str "row 0"; str "row 1"]
                       (Some [Spec.meta_of "report.pdf" 0 3;
                              Spec.meta_of "report.pdf" 1 3])))) as Ha
    by (by vm_compute).
  split; [exact Ha |].
  destruct (web_answer_cites_sources (fun p => p)
              (fun _ _ _ => Spec.three_rows) (str "why") 60 5 _ Ha)
    as (prompt & Hp & Hq & _).
  exists prompt. split; [exact Hp | exact Hq].
Defined.

Lemma preview_len (doc : text) : len (preview doc) <= 83.
Proof.
  unfold preview. rewrite Z.gtb_ltb.
  destruct (Z.ltb_spec 80 (len doc)); [| lia].
  pose proof (length_slice_le doc 0 80). unfold len in *.
  rewrite length_app. simpl. lia.
Qed.

Lemma sim_color_green (similarity : Q) :
  sim_color similarity = str "green" <-> (80 <= similarity)%Q.
Proof.
  unfold sim_color. rewrite <- Qle_bool_iff.
  destruct (Qle_bool 80 similarity); [done |].
  by destruct (Qle_bool 70 similarity).
Qed.

(** X19.  The table of the CLI has one row for each row that reaches the
    threshold, in their order, ranked from 1; the similarity of every row
    of the table is at least [min_similarity]; a row is green exactly when
    its similarity is at least 80; and no preview is longer than 83
    characters. *)
Theorem table_rows_ranked (r : results) (m : Q) :
  map rank (table_rows r m)
  = map (fun i => str_of_nat (S i)) (seq 0 (length (display_results r m))) /\
  map score (table_rows r m) = map snd (display_results r m) /\
  Forall (fun row =>
            (m <= score row)%Q /\ len (row_preview row) <= 83 /\
            (color row = str "green" <-> (80 <= score row)%Q))
         (table_rows r m).
Proof.
  unfold table_rows. split; [| split].
  - change (map rank ?l) with (rank <$> l). rewrite fmap_imap.
    rewrite <- imap_seq_0. apply imap_ext. by intros i [[doc meta] sim] _.
  - change (map score ?l) with (score <$> l). rewrite fmap_imap.
    rewrite <- (imap_const snd). apply imap_ext. by intros i [[doc meta] sim] _.
  - apply Forall_lookup. intros i row. rewrite list_lookup_imap.
    destruct (display_results r m !! i) as [[[doc meta] sim] |] eqn:Hi;
      [| done].
    intros [= <-]. cbn [score row_preview color].
    split; [| split; [apply preview_len | apply sim_color_green]].
    apply list_elem_of_lookup_2 in Hi. rewrite display_results_rows in Hi.
    apply list_elem_of_In, List.in_map_iff in Hi as (row0 & Hrow & Hin).
    apply List.filter_In in Hin as [_ Hkeep]. injection Hrow as _ _ <-.
    by apply Qle_bool_iff.
Qed.

End AnswerFacts.

(** ** The threshold of the session *)

Module SessionFacts.
Import Text Vectorize Callers Session CallerFacts.

Lemma threshold_command_range (m : Q) (arg : option Q) :
  (0 <= m <= 100)%Q -> (0 <= threshold_command m arg <= 100)%Q.
Proof.
  intros Hm. unfold threshold_command. destruct arg as [x |]; [| done].
  destruct (Qle_bool 0 x && Qle_bool x 100) eqn:Hx; [| done].
  apply andb_true_iff in Hx as [H0 H100]. by rewrite !Qle_bool_iff in *.
Qed.

(** X21.  Whatever [threshold] commands are typed, the threshold of the
    session stays between 0 and 100: a number outside that range, or
    something that is not a number, leaves it as it was; a number within
    the range becomes the threshold. *)
Theorem threshold_stays_in_range (args : list (option Q)) :
  (0 <= threshold_after args <= 100)%Q /\
  (forall x : Q,
     (0 <= x <= 100)%Q -> threshold_after (args ++ [Some x]) = x) /\
  (forall x : Q,
     (x < 0 \/ 100 < x)%Q ->
     threshold_after (args ++ [Some x]) = threshold_after args) /\
  threshold_after (args ++ [None]) = threshold_after args.
Proof.
  unfold threshold_after. split; [| split; [| split]].
  - induction args as [| arg args IH] using rev_ind; [by vm_compute |].
    rewrite foldl_snoc. by apply threshold_command_range.
  - intros x [H0 H100]. rewrite foldl_snoc. unfold threshold_command.
    apply Qle_bool_iff in H0, H100. by rewrite H0, H100.
  - intros x Hx. rewrite foldl_snoc. unfold threshold_command.
    destruct (Qle_bool 0 x && Qle_bool x 100) eqn:Hin; [| done].
    apply andb_true_iff in Hin as [H0 H100]. rewrite !Qle_bool_iff in *.
    destruct Hx as [Hx | Hx]; [by apply Qlt_not_le in Hx |].
    by apply Qlt_not_le in Hx.
  - by rewrite foldl_snoc.
Qed.

Lemma threshold_stays_in_range_witness :
  (0 <= 75 <= 100)%Q /\
  threshold_after ([Some 150%Q; None] ++ [Some 75%Q]) = 75%Q.
Proof.
  split; [by vm_compute |].
  apply (proj1 (proj2 (threshold_stays_in_range [Some 150%Q; None]))).
  by vm_compute.
Defined.

Lemma filter_all {A} (f : A -> bool) (l : list A) :
  Forall (fun x => f x = true) l -> List.filter f l = l.
Proof. induction 1 as [| x l Hx _ IH]; simpl; [done |]. by rewrite Hx, IH. Qed.

Lemma filter_nothing {A} (f : A -> bool) (l : list A) :
  Forall (fun x => f x = false) l -> List.filter f l = [].
Proof. induction 1 as [| x l Hx _ IH]; simpl; [done |]. by rewrite Hx. Qed.

(** X22.  At the two ends of the range: with a threshold of 0 (or below)
    no row is filtered out, whatever its distance, because a similarity is
    never negative; with a threshold above 100 no row is kept when the
    distances are not negative, because a similarity is then at most
    100. *)
Theorem threshold_extremes (r : results) (m : Q) :
  ((m <= 0)%Q ->
   display_results r m = map Spec.with_similarity (rows r)) /\
  ((100 < m)%Q -> Forall (fun row => (0 <= row.2)%Q) (rows r) ->
   display_results r m = []).
Proof.
  rewrite display_results_rows. split.
  - intros Hm. f_equal. apply filter_all, List.Forall_forall.
    intros row _. apply Qle_bool_iff. eapply Qle_trans; [exact Hm |].
    apply Q.le_max_l.
  - intros Hm Hpos. rewrite filter_nothing; [done |].
    eapply Forall_impl; [exact Hpos |]. intros row Hrow. simpl in Hrow.
    destruct (Spec.keeps m row) eqn:Hk; [exfalso | done].
    apply Qle_bool_iff in Hk. unfold Spec.similarity_spec in Hk.
    apply Qlt_not_le in Hm. apply Hm. eapply Qle_trans; [exact Hk |].
    apply Q.max_lub; [done |]. rewrite Qhalf. lra.
Qed.

Lemma threshold_extremes_witness :
  (0 <= 0)%Q /\
  display_results Spec.five_rows 0
  = map Spec.with_similarity (rows Spec.five_rows).
Proof.
  split; [by vm_compute |].
  apply (proj1 (threshold_extremes Spec.five_rows 0)). by vm_compute.
Defined.

End SessionFacts.
